(** * VoiceClips: the voice-triggered clipper ([UI/clipper.py])

    A shallow embedding of the [Clipper] class: the command detector of
    [listen_for_clips] (normalisation, direct and fuzzy matching,
    cooldown and duplicate suppression), the bounded buffers installed by
    [set_buffer_duration], and [save_clip] with its lock, its temporary
    files and its external encoder.

    Conventions.
    - A Python [str] is a [string]; a character is a code point below 256.
    - [time.time()] is a rational number of seconds.
    - [rapidfuzz.fuzz.ratio] is an external library function: the
      normalised Indel similarity, here in exact rational arithmetic.
    - A [collections.deque] is its list of items, oldest first, with its
      optional [maxlen].
    - The file system is a finite map from paths to file contents. *)

From Stdlib Require Import QArith.
From Stdlib Require Import Ascii String.
From stdpp Require Import base list strings gmap pretty.
Close Scope Q_scope.


(** ** Python strings *)

Module PyStr.

(** [str.isspace] on one character: the ASCII separators, and NEL and
    NBSP of Latin-1. *)
Definition is_space (c : ascii) : bool :=
  let n := N_of_ascii c in
  ((9 <=? n) && (n <=? 13) || (28 <=? n) && (n <=? 32)
   || (n =? 133) || (n =? 160))%N.

(** [str.lower] on one character: A..Z, and the upper-case letters of
    Latin-1 (all of 0xC0..0xDE but the multiplication sign). *)
Definition lower_char (c : ascii) : ascii :=
  let n := N_of_ascii c in
  if ((65 <=? n) && (n <=? 90)
      || (192 <=? n) && (n <=? 222) && negb (n =? 215))%N
  then ascii_of_N (n + 32) else c.

Fixpoint lower (s : string) : string :=
  match s with
  | EmptyString => EmptyString
  | String c s' => String (lower_char c) (lower s')
  end.

Fixpoint lstrip (s : string) : string :=
  match s with
  | EmptyString => EmptyString
  | String c s' => if is_space c then lstrip s' else s
  end.

Fixpoint rstrip (s : string) : string :=
  match s with
  | EmptyString => EmptyString
  | String c s' =>
      match rstrip s' with
      | EmptyString => if is_space c then EmptyString else String c EmptyString
      | r => String c r
      end
  end.

Definition strip (s : string) : string := rstrip (lstrip s).

(** [s.split()] with no argument: the maximal runs of non-space
    characters, in order. *)
Fixpoint split (s : string) : list string :=
  match s with
  | EmptyString => []
  | String c s' =>
      if is_space c then split s'
      else match s' with
           | EmptyString => [String c EmptyString]
           | String c' _ =>
               if is_space c' then String c EmptyString :: split s'
               else match split s' with
                    | w :: ws => String c w :: ws
                    | [] => [String c EmptyString]
                    end
           end
  end.

(** [sep.join(words)] *)
Definition join (sep : string) (ws : list string) : string :=
  String.concat sep ws.

(** [needle in hay] on two strings: [needle] occurs in [hay] as a
    contiguous run. *)
Fixpoint contains (hay needle : string) : bool :=
  String.prefix needle hay
  || match hay with
     | EmptyString => false
     | String _ hay' => contains hay' needle
     end.

(** [x in xs] on a list or a deque of strings. *)
Definition mem (x : string) (xs : list string) : bool :=
  existsb (String.eqb x) xs.

(** Truth value of a string: non-empty. *)
Definition truthy (s : string) : bool :=
  match s with EmptyString => false | _ => true end.

(** A word: not empty, and free of white space. *)
Definition word_like (w : string) : Prop :=
  w ≠ EmptyString ∧ ∀ c, In c (list_ascii_of_string w) → is_space c = false.

End PyStr.

(** ** rapidfuzz *)

Module Fuzz.

(** Length of a longest common subsequence. *)
Fixpoint lcs (a b : string) : nat :=
  match a with
  | EmptyString => 0
  | String x a' =>
      (fix inner (b : string) : nat :=
         match b with
         | EmptyString => 0
         | String y b' =>
             if Ascii.eqb x y then S (lcs a' b')
             else Nat.max (lcs a' b) (inner b')
         end) b
  end.

(** [fuzz.ratio(s1, s2)]: 100 * (1 - indel / (len1 + len2)), where the
    Indel distance is [len1 + len2 - 2 * lcs]; 100 on two empty
    strings. *)
Definition ratio (s1 s2 : string) : Q :=
  let total := String.length s1 + String.length s2 in
  match total with
  | O => 100%Q
  | S _ => (Z.of_nat (200 * lcs s1 s2) # Pos.of_nat total)%Q
  end.

End Fuzz.

(** ** collections.deque *)

Module Deque.

Record deque (A : Type) : Type :=
  mk { items : list A; maxlen : option N }.
Arguments mk {A} _ _.
Arguments items {A} _.
Arguments maxlen {A} _.

(** [deque(maxlen=n)] *)
Definition empty {A} (n : N) : deque A := mk [] (Some n).

(** [d.append(x)]: the item goes to the right end and, when the deque
    is then longer than [maxlen], the leftmost item is discarded. *)
Definition append {A} (d : deque A) (x : A) : deque A :=
  let l := items d ++ [x] in
  match maxlen d with
  | Some m => mk (if (m <? N.of_nat (length l))%N then tail l else l) (Some m)
  | None => mk l None
  end.

Definition len {A} (d : deque A) : nat := length (items d).

(** The last [n] items of a list. *)
Definition last_n {A} (n : nat) (l : list A) : list A :=
  drop (length l - n) l.

End Deque.


(** ** The command detector of [listen_for_clips] *)

Module Detector.
Import PyStr.

(** The words the clean-up drops. *)
Definition stop_words : list string :=
  ["the"; "a"; "an"; "and"; "or"; "but"; "in"; "on"; "at"; "to"].

Definition clip_words : list string :=
  ["clip"; "clips"; "clipped"; "click"; "quick"; "cli"; "clis"].

(** [result.get("text", default).lower().strip()], the default being the
    empty string *)
Definition recognized_text (text : string) : string := strip (lower text).

(** [len(word) > 1 and word not in [...]] *)
Definition keep_word (word : string) : bool :=
  (1 <? String.length word) && negb (mem word stop_words).

(** [' '.join(word for word in recognized_text.split() if ...)] *)
Definition cleaned_text (recognized : string) : string :=
  join " " (List.filter keep_word (split recognized)).

(** [ratio > 40] *)
Definition above_threshold (ratio : Q) : bool := negb (Qle_bool ratio 40).

(** The fuzzy loop: the first word whose ratio against "clip" passes is
    reported with its ratio, and the loop breaks there. *)
Fixpoint fuzzy_scan (words : list string) : option (string * Q) :=
  match words with
  | [] => None
  | word :: rest =>
      let ratio := Fuzz.ratio "clip" word in
      if above_threshold ratio then Some (word, ratio) else fuzzy_scan rest
  end.

Inductive detection : Type :=
| DirectMatch
| FuzzyMatch (word : string) (ratio : Q)
| NoMatch.

(** [any(word in cleaned_text for word in clip_words)] *)
Definition direct_match (cleaned : string) : bool :=
  existsb (fun word => contains cleaned word) clip_words.

Definition detect (cleaned : string) : detection :=
  if direct_match cleaned then DirectMatch
  else match fuzzy_scan (split cleaned) with
       | Some (word, ratio) => FuzzyMatch word ratio
       | None => NoMatch
       end.

Definition clip_detected (d : detection) : bool :=
  match d with NoMatch => false | _ => true end.

(** The two locals of the loop. *)
Record state : Type := mk_state {
  recent_commands : Deque.deque string;
  last_clip_time : Q
}.

Definition initial : state :=
  {| recent_commands := Deque.empty 3; last_clip_time := 0%Q |}.

(** What one recognised utterance leads to. *)
Inductive outcome : Type :=
| Skipped            (* no meaningful text: nothing is printed *)
| NoCommand          (* heard, and no clip word in it *)
| ClipStarted        (* a thread running [save_clip] is started *)
| DuplicateIgnored   (* "Duplicate command ignored" *)
| PleaseWait.        (* "Please wait before creating another clip" *)

(** The body of the loop from the recognised text on; [now] is the
    value [time.time()] returns in this iteration. *)
Definition on_text (now : Q) (text : string) (st : state) : state * outcome :=
  let recognized := recognized_text text in
  if truthy recognized && (1 <? String.length recognized) then
    let cleaned := cleaned_text recognized in
    if truthy cleaned then
      if clip_detected (detect cleaned) then
        if negb (Qle_bool (now - last_clip_time st) 2) then
          if negb (mem cleaned (Deque.items (recent_commands st))) then
            ({| recent_commands := Deque.append (recent_commands st) cleaned;
                last_clip_time := now |}, ClipStarted)
          else (st, DuplicateIgnored)
        else (st, PleaseWait)
      else (st, NoCommand)
    else (st, Skipped)
  else (st, Skipped).

(** The loop over the utterances the recogniser completes, each with the
    clock reading of its iteration. *)
Fixpoint listen (utterances : list (Q * string)) (st : state)
  : state * list outcome :=
  match utterances with
  | [] => (st, [])
  | (now, text) :: rest =>
      let '(st1, o) := on_text now text st in
      let '(st2, os) := listen rest st1 in
      (st2, o :: os)
  end.

(** The cleaned texts of the utterances that started a clip, oldest
    first. *)
Fixpoint accepted (utterances : list (Q * string)) (st : state)
  : list string :=
  match utterances with
  | [] => []
  | (now, text) :: rest =>
      let '(st1, o) := on_text now text st in
      match o with
      | ClipStarted => cleaned_text (recognized_text text) :: accepted rest st1
      | _ => accepted rest st1
      end
  end.

(** The utterance reaches the cooldown test: it is meaningful and a
    clip word is detected in its cleaned text. *)
Definition trigger_worthy (text : string) : bool :=
  let recognized := recognized_text text in
  truthy recognized && (1 <? String.length recognized)
  && truthy (cleaned_text recognized)
  && clip_detected (detect (cleaned_text recognized)).

(** Detection as the specification words it: a token equal to an entry
    of the vocabulary, or else a token whose ratio exceeds 40. *)
Definition token_equals_entry (cleaned : string) : bool :=
  existsb (fun token => mem token clip_words) (split cleaned).

Definition token_is_close (cleaned : string) : bool :=
  existsb (fun token => above_threshold (Fuzz.ratio "clip" token))
    (split cleaned).

Definition detection_by_tokens (cleaned : string) : bool :=
  token_equals_entry cleaned
  || negb (token_equals_entry cleaned) && token_is_close cleaned.

Definition count_started (os : list outcome) : nat :=
  length (List.filter (fun o => match o with ClipStarted => true | _ => false end) os).

End Detector.


(** ** The [Clipper] object, its files and its effects *)

Module Clipper.
Import Deque.

(** An item of a buffer: a block of bytes, or any other Python object,
    which [f.write] and [b''.join] reject with a [TypeError]. *)
Inductive item : Type :=
| Block (data : list Byte.byte)
| NotBytes.

Record clipper : Type := mk_clipper {
  buffer_duration : Z;
  output_folder : string;
  format : string;
  is_listening : bool;
  frame_buffer : option (deque item);   (* [None] until it is set *)
  audio_buffer : option (deque item);
  clip_counter : Z
}.

(** What a file holds. *)
Inductive file : Type :=
| Raw (data : list Byte.byte)
| Wave (nchannels sampwidth framerate : Z) (frames : list Byte.byte).

Inductive exn : Type :=
| CalledProcessError (returncode : Z) (stderr : string)
| PyException (name : string)        (* any other subclass of Exception *)
| PyBaseException (name : string).   (* KeyboardInterrupt, SystemExit *)

(** [isinstance(e, Exception)] *)
Definition is_Exception (e : exn) : bool :=
  match e with PyBaseException _ => false | _ => true end.

(** What [subprocess.run] does before [check] is looked at. *)
Inductive run_result : Type :=
| Completed (returncode : Z) (stderr : string)
| RunRaised (e : exn).

(** The surroundings of a call. *)
Record env : Type := mk_env {
  strftime : string;                    (* time.strftime("%Y%m%d_%H%M%S") *)
  system : string;                      (* platform.system() *)
  path_join : string → string → string; (* os.path.join *)
  writable : string → bool;             (* opening the path for writing succeeds *)
  removable : string → bool;            (* os.remove on the path succeeds *)
  encoder : list string → gmap string file → gmap string file * run_result
}.

Inductive message : Type :=
| NoFramesToSave
| SavingClipTo (path : string)
| ProcessingClip
| ClipSaved (path : string)
| ErrorSavingClip (e : exn)
| FFmpegError (stderr : string).

Inductive event : Type :=
| Acquire                    (* self.lock is taken *)
| Release                    (* self.lock is given back *)
| Print (m : message)
| Created (path : string)    (* a file is opened for writing *)
| Snapshot (n : nat)         (* list(self.frame_buffer): n frames copied *)
| EncoderRun (command : list string) (r : run_result)
| Removed (path : string).

Record machine : Type := mk_machine {
  self : clipper;
  files : gmap string file;
  trace : list event           (* oldest first *)
}.

Inductive result (A : Type) : Type :=
| Ok (a : A)
| Raise (e : exn).
Arguments Ok {A} _.
Arguments Raise {A} _.

(** Computations: they read the surroundings, change the machine, and
    return or raise. *)
Definition M (A : Type) : Type := env → machine → result A * machine.

Definition ret {A} (a : A) : M A := fun _ m => (Ok a, m).

Definition bind {A B} (c : M A) (k : A → M B) : M B :=
  fun e m =>
    match c e m with
    | (Ok a, m1) => k a e m1
    | (Raise x, m1) => (Raise x, m1)
    end.

Definition raise {A} (x : exn) : M A := fun _ m => (Raise x, m).

(** [try: body / except Exception as e: handler(e)] *)
Definition try_except {A} (body : M A) (handler : exn → M A) : M A :=
  fun e m =>
    match body e m with
    | (Ok a, m1) => (Ok a, m1)
    | (Raise x, m1) =>
        if is_Exception x then handler x e m1 else (Raise x, m1)
    end.

(** [try: body / finally: cleanup]: the clean-up runs on every way
    out; an exception of the clean-up replaces the pending outcome. *)
Definition try_finally {A} (body : M A) (cleanup : M unit) : M A :=
  fun e m =>
    let '(r, m1) := body e m in
    match cleanup e m1 with
    | (Ok _, m2) => (r, m2)
    | (Raise x, m2) => (Raise x, m2)
    end.

Definition ask : M env := fun e m => (Ok e, m).
Definition get_self : M clipper := fun _ m => (Ok (self m), m).
Definition get_files : M (gmap string file) := fun _ m => (Ok (files m), m).
Definition put_self (c : clipper) : M unit :=
  fun _ m => (Ok tt, mk_machine c (files m) (trace m)).
Definition put_files (f : gmap string file) : M unit :=
  fun _ m => (Ok tt, mk_machine (self m) f (trace m)).
Definition emit (ev : event) : M unit :=
  fun _ m => (Ok tt, mk_machine (self m) (files m) (trace m ++ [ev])).

Declare Scope clip_scope.
Delimit Scope clip_scope with clip.
Local Notation "x ← c ; k" := (bind c (fun x => k))
  (at level 20, c at level 100, k at level 200, only parsing) : clip_scope.
Local Notation "c ;; k" := (bind c (fun _ => k))
  (at level 100, k at level 200, only parsing, right associativity) : clip_scope.
Local Open Scope clip_scope.

Definition print (msg : message) : M unit := emit (Print msg).

(** [with self.lock: body] *)
Definition with_lock {A} (body : M A) : M A :=
  emit Acquire ;; try_finally body (emit Release).

(** Truth value of a buffer, as [self.frame_buffer and
    len(self.frame_buffer) > 0] reads it: set, and not empty. *)
Definition nonempty (b : option (deque item)) : bool :=
  match b with
  | Some d => match items d with [] => false | _ => true end
  | None => false
  end.

Definition contents (b : option (deque item)) : list item :=
  match b with Some d => items d | None => [] end.

(** [os.path.exists(path)] *)
Definition path_exists (path : string) : M bool :=
  fs ← get_files; ret (bool_decide (is_Some (fs !! path))).

(** [os.remove(path)], on a file that exists: the file goes, or the call
    fails with an [OSError] and the file stays. *)
Definition remove (path : string) : M unit :=
  e ← ask;
  if removable e path then
    fs ← get_files; put_files (delete path fs) ;; emit (Removed path)
  else raise (PyException "OSError").

(** Opening a file for writing truncates or creates it, or fails with
    an [OSError]. *)
Definition open_write (path : string) (initial : file) : M unit :=
  e ← ask;
  if writable e path then
    fs ← get_files; put_files (<[path := initial]> fs) ;; emit (Created path)
  else raise (PyException "OSError").

(** [f.write(frame)] *)
Definition write_frame (path : string) (frame : item) : M unit :=
  match frame with
  | Block data =>
      fs ← get_files;
      match fs !! path with
      | Some (Raw old) => put_files (<[path := Raw (old ++ data)]> fs)
      | _ => ret tt
      end
  | NotBytes => raise (PyException "TypeError")
  end.

Fixpoint write_frames (path : string) (frames : list item) : M unit :=
  match frames with
  | [] => ret tt
  | frame :: rest => write_frame path frame ;; write_frames path rest
  end.

(** [b''.join(blocks)]: [None] stands for the [TypeError]. *)
Fixpoint join_blocks (blocks : list item) : option (list Byte.byte) :=
  match blocks with
  | [] => Some []
  | Block data :: rest => app data <$> join_blocks rest
  | NotBytes :: _ => None
  end.

(** The [with wave.open(temp_audio, 'wb')] block: the file is created,
    the header is 2 channels, 2 bytes a sample, 44100 Hz. *)
Definition write_wave (path : string) (blocks : list item) : M unit :=
  open_write path (Wave 2 2 44100 []) ;;
  match join_blocks blocks with
  | Some data =>
      fs ← get_files; put_files (<[path := Wave 2 2 44100 data]> fs)
  | None => raise (PyException "TypeError")
  end.

Definition audio_input (has_audio : bool) (temp_audio : string) : list string :=
  if has_audio then ["-i"; temp_audio; "-c:a"; "aac"; "-b:a"; "192k"] else [].

(** The FFmpeg command line of either branch. *)
Definition ffmpeg_command (system : string) (has_audio : bool)
    (temp_video temp_audio output_filename : string) : list string :=
  if String.eqb system "Darwin" then
    ["ffmpeg"; "-f"; "rawvideo"; "-vcodec"; "rawvideo"; "-s"; "1920x1080";
     "-pix_fmt"; "rgb24"; "-framerate"; "30"; "-i"; temp_video]
    ++ audio_input has_audio temp_audio
    ++ ["-c:v"; "h264"; "-preset"; "ultrafast"; "-pix_fmt"; "yuv420p";
        "-profile:v"; "high"; "-r"; "30"; "-movflags"; "+faststart";
        "-strict"; "experimental"; "-y"; output_filename]
  else
    ["ffmpeg"; "-f"; "rawvideo"; "-vcodec"; "rawvideo"; "-s"; "1920x1080";
     "-pix_fmt"; "rgb24"; "-framerate"; "30"; "-i"; temp_video]
    ++ audio_input has_audio temp_audio
    ++ ["-c:v"; "libx264"; "-preset"; "ultrafast"; "-pix_fmt"; "yuv420p";
        "-profile:v"; "baseline"; "-level"; "3.0"; "-r"; "30"; "-y";
        output_filename].

(** [subprocess.run(command, check=True, capture_output=True, text=True)] *)
Definition run_checked (command : list string) : M unit :=
  e ← ask; fs ← get_files;
  let '(fs', r) := encoder e command fs in
  put_files fs' ;; emit (EncoderRun command r) ;;
  match r with
  | Completed returncode stderr =>
      if (returncode =? 0)%Z then ret tt
      else raise (CalledProcessError returncode stderr)
  | RunRaised x => raise x
  end.

Definition output_filename_of (e : env) (c : clipper) : string :=
  path_join e (output_folder c)
    ("clip_" +:+ strftime e +:+ "_" +:+ pretty (clip_counter c) +:+ "."
     +:+ PyStr.lower (format c)).
Definition temp_video_of (e : env) (c : clipper) : string :=
  path_join e (output_folder c) ("temp_video_" +:+ strftime e +:+ ".raw").
Definition temp_audio_of (e : env) (c : clipper) : string :=
  path_join e (output_folder c) ("temp_audio_" +:+ strftime e +:+ ".wav").

(** The body of the [try]. *)
Definition materialize_and_encode
    (temp_video temp_audio output_filename : string) : M unit :=
  open_write temp_video (Raw []) ;;
  c ← get_self;
  let frames := contents (frame_buffer c) in
  emit (Snapshot (length frames)) ;;
  write_frames temp_video frames ;;
  (if nonempty (audio_buffer c)
   then write_wave temp_audio (contents (audio_buffer c)) else ret tt) ;;
  e ← ask;
  has_audio ← path_exists temp_audio;
  print ProcessingClip ;;
  run_checked
    (ffmpeg_command (system e) has_audio temp_video temp_audio output_filename) ;;
  print (ClipSaved output_filename).

(** The two [except] clauses. *)
Definition on_error (x : exn) : M unit :=
  match x with
  | CalledProcessError _ stderr =>
      print (ErrorSavingClip x) ;;
      if PyStr.truthy stderr then print (FFmpegError stderr) else ret tt
  | _ => print (ErrorSavingClip x)
  end.

(** The [finally] clause. *)
Definition cleanup (temp_video temp_audio : string) : M unit :=
  v ← path_exists temp_video;
  (if v then remove temp_video else ret tt) ;;
  a ← path_exists temp_audio;
  if a then remove temp_audio else ret tt.

(** [self.clip_counter += 1] *)
Definition count_up (c : clipper) : clipper :=
  mk_clipper (buffer_duration c) (output_folder c) (format c)
    (is_listening c) (frame_buffer c) (audio_buffer c) (clip_counter c + 1).

Definition save_clip : M unit :=
  with_lock (
    c0 ← get_self;
    if negb (nonempty (frame_buffer c0)) then print NoFramesToSave
    else
      let c := count_up c0 in
      put_self c ;;
      e ← ask;
      let output_filename := output_filename_of e c in
      let temp_video := temp_video_of e c in
      let temp_audio := temp_audio_of e c in
      print (SavingClipTo output_filename) ;;
      try_finally
        (try_except
           (materialize_and_encode temp_video temp_audio output_filename)
           on_error)
        (cleanup temp_video temp_audio)).

(** The largest [maxlen] a deque takes (a 64-bit [Py_ssize_t]). *)
Definition PY_SSIZE_T_MAX : Z := 2 ^ 63 - 1.

(** [deque(maxlen=n)] on an integer [n]: an [n] that does not fit a
    [Py_ssize_t] is an [OverflowError], a negative one that fits is a
    [ValueError]. *)
Definition new_deque (n : Z) : M (deque item) :=
  if ((n <? - 2 ^ 63) || (PY_SSIZE_T_MAX <? n))%Z
  then raise (PyException "OverflowError")
  else if (n <? 0)%Z then raise (PyException "ValueError")
  else ret (Deque.empty (Z.to_N n)).

(** [hasattr(self, 'frame_buffer')] and [hasattr(self, 'audio_buffer')]
    hold on every object: [__init__] sets both attributes. *)
Definition set_buffer_duration (duration : Z) : M unit :=
  c0 ← get_self;
  put_self (mk_clipper duration (output_folder c0) (format c0)
              (is_listening c0) (frame_buffer c0) (audio_buffer c0)
              (clip_counter c0)) ;;
  fb ← new_deque (duration * 30);
  c1 ← get_self;
  put_self (mk_clipper (buffer_duration c1) (output_folder c1) (format c1)
              (is_listening c1) (Some fb) (audio_buffer c1)
              (clip_counter c1)) ;;
  ab ← new_deque (duration * 44100 * 2);
  c2 ← get_self;
  put_self (mk_clipper (buffer_duration c2) (output_folder c2) (format c2)
              (is_listening c2) (frame_buffer c2) (Some ab)
              (clip_counter c2)).

Definition set_buffers (fb ab : option (deque item)) : M unit :=
  c ← get_self;
  put_self (mk_clipper (buffer_duration c) (output_folder c) (format c)
              (is_listening c) fb ab (clip_counter c)).

(** The capture feed pushes with [append]. *)
Definition push_all {A} (d : deque A) (xs : list A) : deque A :=
  fold_left Deque.append xs d.

(** [os.path.join] on a POSIX system, for a relative second part. *)
Definition posix_join (folder name : string) : string :=
  match folder with
  | EmptyString => name
  | _ => if String.eqb (String.substring (String.length folder - 1) 1 folder) "/"
         then folder +:+ name else folder +:+ "/" +:+ name
  end.

(** [Clipper(...)] once [__init__] has run; [expanduser] is
    [os.path.expanduser] of the machine. *)
Definition new_clipper (expanduser : string → string) (duration : Z)
    (folder fmt : string) : clipper :=
  mk_clipper duration (expanduser folder) (PyStr.lower fmt) false None None 0.

Definition start (c : clipper) (fs : gmap string file) : machine :=
  mk_machine c fs [].

(** ** Reading a trace *)

(** The exception a call of the encoder ends in, if any. *)
Definition failure_of (r : run_result) : option exn :=
  match r with
  | Completed returncode stderr =>
      if (returncode =? 0)%Z then None
      else Some (CalledProcessError returncode stderr)
  | RunRaised x => Some x
  end.

Definition is_lock_event (ev : event) : bool :=
  match ev with Acquire | Release => true | _ => false end.

Definition is_encoder_run (ev : event) : bool :=
  match ev with EncoderRun _ _ => true | _ => false end.

(** Each event with whether the lock is held when it happens. *)
Fixpoint with_lock_state (held : bool) (t : list event) : list (bool * event) :=
  match t with
  | [] => []
  | Acquire :: rest => (held, Acquire) :: with_lock_state true rest
  | Release :: rest => (held, Release) :: with_lock_state false rest
  | ev :: rest => (held, ev) :: with_lock_state held rest
  end.

(** The copy of the buffers, and the release that ends the locked
    region. *)
Definition is_copy_step (ev : event) : bool :=
  match ev with Snapshot _ | Release => true | _ => false end.

(** The lock is held for the copy of the buffers only. *)
Definition lock_held_only_for_copy (t : list event) : Prop :=
  ∀ ev, In (true, ev) (with_lock_state false t) → is_copy_step ev = true.

(** The events a call adds to the trace. *)
Definition events_of {A} (c : M A) (e : env) (m : machine) : list event :=
  drop (length (trace m)) (trace (snd (c e m))).

(** The path holds no file, or its file can be removed. *)
Definition cleanable (e : env) (fs : gmap string file) (path : string) : Prop :=
  fs !! path = None ∨ removable e path = true.

End Clipper.


(** ** A clipper to run *)

Module Demo.
Import Clipper.

(** A Linux machine on which every file can be written and removed and
    FFmpeg exits with [returncode], having written [stderr] and no
    file. *)
Definition linux (returncode : Z) (stderr : string) : env :=
  mk_env "20240101_120000" "Linux" posix_join (fun _ => true) (fun _ => true)
    (fun _ fs => (fs, Completed returncode stderr)).

(** One second of buffers, with two frames and one block of sound. *)
Definition clipper_with_frames : clipper :=
  mk_clipper 1 "clips" "mp4" false
    (Some (Deque.mk [Block [Byte.x01]; Block [Byte.x02]] (Some 30%N)))
    (Some (Deque.mk [Block [Byte.x03; Byte.x04]] (Some 88200%N)))
    0.

(** A clipper fresh from [__init__]: no buffer is set. The folder has no
    tilde, so expanding the user leaves it as it is. *)
Definition fresh_clipper : clipper :=
  new_clipper (fun path => path) 30 "clips" "mp4".

End Demo.

(** ** Two threads and one lock *)

Module Schedule.
Import Clipper.

Inductive thread : Type := First | Second.

(** A thread takes the lock only when it is free, and gives back only
    the lock it holds. *)
Definition allowed (holder : option thread) (who : thread) (ev : event) : Prop :=
  match ev with
  | Acquire => holder = None
  | Release => holder = Some who
  | _ => True
  end.

Definition after (holder : option thread) (who : thread) (ev : event)
  : option thread :=
  match ev with
  | Acquire => Some who
  | Release => None
  | _ => holder
  end.

(** The interleavings of the events of two threads the lock admits. *)
Inductive interleaving (holder : option thread)
  : list event → list event → list (thread * event) → Prop :=
| both_done : interleaving holder [] [] []
| first_steps ev t1 t2 rest :
    allowed holder First ev →
    interleaving (after holder First ev) t1 t2 rest →
    interleaving holder (ev :: t1) t2 ((First, ev) :: rest)
| second_steps ev t1 t2 rest :
    allowed holder Second ev →
    interleaving (after holder Second ev) t1 t2 rest →
    interleaving holder t1 (ev :: t2) ((Second, ev) :: rest).

Definition by_thread (who : thread) (t : list event) : list (thread * event) :=
  map (pair who) t.

End Schedule.

(** ** Runs of the detector *)

Module Run.
Import Detector.

(** The clock readings of the utterances that started a clip, oldest
    first. *)
Fixpoint accepted_times (utterances : list (Q * string)) (st : state)
  : list Q :=
  match utterances with
  | [] => []
  | (now, text) :: rest =>
      let '(st1, o) := on_text now text st in
      match o with
      | ClipStarted => now :: accepted_times rest st1
      | _ => accepted_times rest st1
      end
  end.

(** Each time of the list is more than two seconds after the one before
    it, the first one after [last]. *)
Fixpoint spaced (last : Q) (times : list Q) : Prop :=
  match times with
  | [] => True
  | t :: rest => (2 < t - last)%Q ∧ spaced t rest
  end.

Definition worthy (utterance : Q * string) : bool :=
  trigger_worthy (snd utterance).

(** The text does not begin with white space. *)
Definition starts_clean (s : string) : Prop :=
  match s with
  | EmptyString => True
  | String c _ => PyStr.is_space c = false
  end.

End Run.

(** ** The capture feed and the saves it leads to *)

Module Feed.
Import Deque Clipper.

(** The capture feed appends the frames, one by one, to the frame buffer
    the clipper holds; nothing happens while no buffer is set. *)
Definition feed (frames : list item) : M unit :=
  bind get_self (fun c =>
    put_self (mk_clipper (buffer_duration c) (output_folder c) (format c)
                (is_listening c)
                (match frame_buffer c with
                 | Some d => Some (push_all d frames)
                 | None => None
                 end)
                (audio_buffer c) (clip_counter c))).

(** One call after another. *)
Definition then_ {A B} (c : M A) (k : M B) : M B := bind c (fun _ => k).

(** The files the encoder is started on when every write went well: the
    raw video holds [video], and the wave file, written only when there
    is sound, holds [sound]. *)
Definition encoder_input (e : env) (m : machine) (video sound : list Byte.byte)
  : gmap string file :=
  let c := count_up (self m) in
  let with_video := <[temp_video_of e c := Raw video]> (files m) in
  if nonempty (audio_buffer c)
  then <[temp_audio_of e c := Wave 2 2 44100 sound]> with_video
  else with_video.

(** The command line of the save that [m] is about to make, given the
    files the encoder is started on. *)
Definition encoder_command (e : env) (m : machine) (input : gmap string file)
  : list string :=
  let c := count_up (self m) in
  ffmpeg_command (system e)
    (bool_decide (is_Some (input !! temp_audio_of e c)))
    (temp_video_of e c) (temp_audio_of e c) (output_filename_of e c).

(** The events of a handler and of the clean-up: lines printed and files
    removed. *)
Definition prints_or_removes (ev : event) : bool :=
  match ev with Print _ | Removed _ => true | _ => false end.

End Feed.

(** ** More surroundings and clippers to run *)

Module Cases.
Import Clipper.

(** A Linux machine with a read-only folder: no file can be opened for
    writing there, and none can be removed. *)
Definition read_only : env :=
  mk_env "20240101_120000" "Linux" posix_join (fun _ => false) (fun _ => false)
    (fun _ fs => (fs, Completed 0 EmptyString)).

(** A Linux machine on which files can be written and FFmpeg exits with
    status 0, but no file can be removed. *)
Definition no_removal : env :=
  mk_env "20240101_120000" "Linux" posix_join (fun _ => true) (fun _ => false)
    (fun _ fs => (fs, Completed 0 EmptyString)).

(** A file under the name of the temporary video, left from before. *)
Definition stale_video : gmap string file :=
  {[ "clips/temp_video_20240101_120000.raw" := Raw [Byte.x09] ]}.

(** A frame buffer into which something that is not bytes was pushed. *)
Definition clipper_with_bad_frame : clipper :=
  mk_clipper 1 "clips" "mp4" false
    (Some (Deque.mk [Block [Byte.x01]; NotBytes] (Some 30%N)))
    None 0.

End Cases.

(** ** The loop of [listen_for_clips], [stop_listening] *)

Module Listener.
Import Clipper.

(** What one turn of the [while] loop meets. *)
Inductive turn : Type :=
| StopRequested                          (* [stop_listening] has run: the test of the loop fails *)
| ChunkFails                             (* reading or recognising raises *)
| Waiting                                (* [AcceptWaveform] returns [False] *)
| Utterance (text : option string) (now : Q).
    (* [AcceptWaveform] returns [True]; the result has a "text" entry or
       none; [now] is the clock of this turn *)

Inductive line : Type :=
| StreamOpened
| Banner                                 (* "Voice Command System Active ..." *)
| Handled (o : Detector.outcome)
| AudioError                             (* "Error processing audio: ..." *)
| RecognitionError                       (* "Error in speech recognition: ..." *)
| StreamStopped
| StreamClosed
| SystemStopped.                         (* "Voice Command System Stopped" *)

(** [self.is_listening = b] *)
Definition set_listening (b : bool) (c : clipper) : clipper :=
  mk_clipper (buffer_duration c) (output_folder c) (format c) b
    (frame_buffer c) (audio_buffer c) (clip_counter c).

Definition stop_listening (c : clipper) : clipper := set_listening false c.

(** [result.get("text", default)] with the empty string for default *)
Definition text_of (text : option string) : string :=
  match text with Some t => t | None => EmptyString end.

(** The [while] loop: the state of the detector at the end, what
    happened, and whether the loop was left. *)
Fixpoint loop (turns : list turn) (st : Detector.state)
  : Detector.state * list line * bool :=
  match turns with
  | [] => (st, [], false)
  | StopRequested :: _ => (st, [], true)
  | ChunkFails :: rest =>
      let '(st', ls, over) := loop rest st in (st', AudioError :: ls, over)
  | Waiting :: rest => loop rest st
  | Utterance text now :: rest =>
      let '(st1, o) := Detector.on_text now (text_of text) st in
      let '(st2, ls, over) := loop rest st1 in
      (st2, Handled o :: ls, over)
  end.

(** [listen_for_clips]: [opens] tells whether the microphone stream
    could be opened, [recognizes] whether the recogniser could be
    built. The result has the clipper, what happened, the state of the
    detector, and whether the method has returned. *)
Definition listen_for_clips (opens recognizes : bool) (turns : list turn)
    (c : clipper) : clipper * list line * Detector.state * bool :=
  if negb opens then
    (c, [RecognitionError; SystemStopped], Detector.initial, true)
  else if negb recognizes then
    (c, [StreamOpened; RecognitionError; StreamStopped; StreamClosed;
         SystemStopped], Detector.initial, true)
  else
    let '(st, ls, over) := loop turns Detector.initial in
    if over then
      (set_listening false c,
       [StreamOpened; Banner] ++ ls ++ [StreamStopped; StreamClosed; SystemStopped],
       st, true)
    else
      (set_listening true c, [StreamOpened; Banner] ++ ls, st, false).

(** The utterances the loop gets to handle: those before the first
    request to stop. *)
Fixpoint heard (turns : list turn) : list (Q * string) :=
  match turns with
  | [] => []
  | StopRequested :: _ => []
  | Utterance text now :: rest => (now, text_of text) :: heard rest
  | _ :: rest => heard rest
  end.

(** The outcomes among the lines. *)
Fixpoint outcomes (ls : list line) : list Detector.outcome :=
  match ls with
  | [] => []
  | Handled o :: rest => o :: outcomes rest
  | _ :: rest => outcomes rest
  end.

Definition is_stop (t : turn) : bool :=
  match t with StopRequested => true | _ => false end.

Definition line_eqb (a b : line) : bool :=
  match a, b with
  | StreamOpened, StreamOpened | Banner, Banner | AudioError, AudioError
  | RecognitionError, RecognitionError | StreamStopped, StreamStopped
  | StreamClosed, StreamClosed | SystemStopped, SystemStopped => true
  | _, _ => false
  end.

Definition count (l : line) (ls : list line) : nat :=
  length (List.filter (line_eqb l) ls).

End Listener.

(** ** Finding the model: [_get_app_data_dir], [_initialize_model] *)

Module ModelPath.

Definition DEFAULT_MODEL_NAME : string := "vosk-model-small-en-us-0.15".

(** The machine the clipper is built on. *)
Record host : Type := mk_host {
  system : string;                       (* platform.system() *)
  appdata : option string;               (* os.getenv("APPDATA") *)
  expanduser : string → string;          (* os.path.expanduser *)
  join : string → string → string;       (* os.path.join *)
  isdir : string → bool;                 (* os.path.isdir *)
  download : string → bool               (* _download_and_extract_model returns *)
}.

Inductive failure : Type :=
| TypeError                              (* os.path.join on None *)
| DownloadFailed.                        (* "Failed to download model: ..." *)

(** [_get_app_data_dir] *)
Definition get_app_data_dir (h : host) : failure + string :=
  if String.eqb (system h) "Windows" then
    match appdata h with
    | Some dir => inr (join h dir "Clipper")
    | None => inl TypeError
    end
  else if String.eqb (system h) "Darwin" then
    inr (expanduser h "~/Library/Application Support/Clipper")
  else inr (expanduser h "~/.clipper").

(** The second half of [_initialize_model]: the default place, and a
    download when no model is there. The result is the path returned or
    the failure, with the paths a download was started for. *)
Definition default_model (h : host) : (failure + string) * list string :=
  match get_app_data_dir h with
  | inl f => (inl f, [])
  | inr app_data_dir =>
      let default_model_path :=
        join h (join h app_data_dir "vosk_models") DEFAULT_MODEL_NAME in
      if isdir h default_model_path then (inr default_model_path, [])
      else if download h default_model_path
           then (inr default_model_path, [default_model_path])
           else (inl DownloadFailed, [default_model_path])
  end.

(** [_initialize_model] *)
Definition initialize_model (h : host) (model_path : option string)
  : (failure + string) * list string :=
  match model_path with
  | Some p => if PyStr.truthy p && isdir h p then (inr p, []) else default_model h
  | None => default_model h
  end.

End ModelPath.

(** ** What lower-casing, trimming and tokenizing mean *)

Module TextSpec.
Import PyStr.

(** The code points Python takes for white space, below 256. *)
Definition white_space_codes : list N :=
  [9; 10; 11; 12; 13; 28; 29; 30; 31; 32; 133; 160]%N.

(** The code points of the upper-case letters, below 256: A to Z, and
    the accented capitals of Latin-1. *)
Definition upper_case_code (n : N) : Prop :=
  (65 <= n <= 90)%N ∨ ((192 <= n <= 222)%N ∧ n ≠ 215%N).

Definition all_space (s : string) : Prop :=
  ∀ c, In c (list_ascii_of_string s) → is_space c = true.

(** The text does not end in white space. *)
Definition ends_clean (s : string) : Prop :=
  ∀ a c, s = a +:+ String c EmptyString → is_space c = false.

(** The text is empty or begins with white space. *)
Definition starts_blank (s : string) : Prop :=
  match s with
  | EmptyString => True
  | String c _ => is_space c = true
  end.

(** The words of a text: the text is white space, then a word, then a
    rest that is empty or begins with white space, and so on. *)
Inductive tokenizes : string → list string → Prop :=
| tokenizes_blank s : all_space s → tokenizes s []
| tokenizes_word sp w rest ws :
    all_space sp → word_like w → starts_blank rest → tokenizes rest ws →
    tokenizes (sp +:+ w +:+ rest) (w :: ws).

End TextSpec.

(** * Properties *)

(** ** Strings *)

Section StringFacts.
Import PyStr.

Lemma word_like_cons c w :
  word_like (String c w) → is_space c = false ∧ (w = EmptyString ∨ word_like w).
Proof.
  intros [_ H]. split.
  - apply H. simpl. auto.
  - destruct w as [|c' w']; [now left|right]. split; [discriminate|].
    intros x Hx. apply H. simpl. right. exact Hx.
Qed.

Lemma split_keeps_words s w : In w (split s) → word_like w.
Proof.
  revert w. induction s as [|c s IH]; simpl; intros w Hw; [contradiction|].
  destruct (is_space c) eqn:Hc; [auto|].
  assert (one : word_like (String c EmptyString)).
  { split; [discriminate|]. intros x [<-|[]]. exact Hc. }
  destruct s as [|c' s'].
  - destruct Hw as [<-|[]]. exact one.
  - destruct (is_space c') eqn:Hc'.
    + destruct Hw as [<-|Hw]; [exact one|auto].
    + destruct (split (String c' s')) as [|w0 ws] eqn:Hsp.
      * destruct Hw as [<-|[]]. exact one.
      * destruct Hw as [<-|Hw].
        -- assert (H0 : word_like w0) by (apply IH; now left).
           split; [discriminate|]. intros x [<-|Hx]; [exact Hc|].
           now apply H0.
        -- apply IH. now right.
Qed.

Lemma split_word_then_space w sp rest :
  word_like w → is_space sp = true →
  split (w +:+ String sp rest) = w :: split rest.
Proof.
  intros Hw Hsp. induction w as [|c w IH]; [now destruct Hw|].
  apply word_like_cons in Hw as [Hc [->|Hw]].
  - simpl. now rewrite Hc, Hsp.
  - specialize (IH Hw). destruct w as [|c' w']; [now destruct Hw|].
    apply word_like_cons in Hw as [Hc' _].
    change (String c (String c' w') +:+ String sp rest)
      with (String c (String c' w' +:+ String sp rest)).
    change (String c' w' +:+ String sp rest)
      with (String c' (w' +:+ String sp rest)) in *.
    cbn [split]. rewrite Hc, Hc'.
    cbn [split] in IH. rewrite Hc' in IH. rewrite IH. reflexivity.
Qed.

Lemma split_one_word w : word_like w → split w = [w].
Proof.
  intros Hw. induction w as [|c w IH]; [now destruct Hw|].
  apply word_like_cons in Hw as [Hc [->|Hw]].
  - simpl. now rewrite Hc.
  - specialize (IH Hw). destruct w as [|c' w']; [now destruct Hw|].
    apply word_like_cons in Hw as [Hc' _].
    cbn [split]. rewrite Hc, Hc'. cbn [split] in IH. rewrite Hc' in IH.
    rewrite IH. reflexivity.
Qed.

(** Splitting what was joined with single spaces gives the words back. *)
Lemma split_join ws :
  Forall word_like ws → split (join " " ws) = ws.
Proof.
  induction 1 as [|w ws Hw Hws IH]; [reflexivity|].
  destruct ws as [|w2 ws'].
  - simpl. now apply split_one_word.
  - change (join " " (w :: w2 :: ws'))
      with (w +:+ String " " (join " " (w2 :: ws'))).
    rewrite split_word_then_space by (auto; reflexivity).
    now rewrite IH.
Qed.

End StringFacts.

Section ContainsFacts.
Import PyStr.

Lemma prefix_stops_at_space v a sp b :
  (∀ c, In c (list_ascii_of_string v) → is_space c = false) →
  is_space sp = true →
  String.prefix v (a +:+ String sp b) = String.prefix v a.
Proof.
  intros Hv Hsp. revert a. induction v as [|x v IH]; intros a;
    [now destruct a|].
  assert (Hx : is_space x = false) by (apply Hv; simpl; auto).
  assert (Hv' : ∀ c, In c (list_ascii_of_string v) → is_space c = false)
    by (intros c Hc; apply Hv; simpl; auto).
  destruct a as [|y a]; simpl.
  - destruct (ascii_dec x sp) as [->|_]; [congruence|reflexivity].
  - destruct (ascii_dec x y); [now apply IH|reflexivity].
Qed.

(** A word occurs in two parts joined by a space exactly when it
    occurs in one of the parts. *)
Lemma contains_across_space v a sp b :
  word_like v → is_space sp = true →
  contains (a +:+ String sp b) v = contains a v || contains b v.
Proof.
  intros [Hne Hv] Hsp. induction a as [|y a IH].
  - destruct v as [|x v]; [contradiction|].
    assert (Hx : is_space x = false) by (apply Hv; simpl; auto).
    simpl. destruct (ascii_dec x sp) as [->|_]; [congruence|]. reflexivity.
  - change (String y a +:+ String sp b) with (String y (a +:+ String sp b)).
    cbn [contains]. rewrite IH.
    change (String y (a +:+ String sp b)) with (String y a +:+ String sp b).
    rewrite prefix_stops_at_space by assumption.
    now rewrite orb_assoc.
Qed.

Lemma contains_join v ws :
  word_like v →
  contains (join " " ws) v = existsb (fun w => contains w v) ws.
Proof.
  intros Hv. induction ws as [|w ws IH].
  - destruct Hv as [Hne _]. destruct v; [contradiction|reflexivity].
  - destruct ws as [|w2 ws'].
    + simpl. now rewrite orb_false_r.
    + change (join " " (w :: w2 :: ws'))
        with (w +:+ String " " (join " " (w2 :: ws'))).
      rewrite contains_across_space by (auto; reflexivity).
      now rewrite IH.
Qed.

Lemma mem_In x xs : mem x xs = true ↔ In x xs.
Proof.
  unfold mem. rewrite existsb_exists. split.
  - intros [y [Hy Heq]]. apply String.eqb_eq in Heq. now subst.
  - intros H. exists x. split; [assumption|apply String.eqb_refl].
Qed.

Lemma mem_not_In x xs : mem x xs = false ↔ ¬ In x xs.
Proof.
  rewrite <- mem_In. destruct (mem x xs); split; congruence.
Qed.

End ContainsFacts.

Section DetectorFacts.
Import PyStr Detector.

Lemma clip_words_word_like v : In v clip_words → word_like v.
Proof.
  intros Hv. split.
  - intros ->. simpl in Hv. intuition discriminate.
  - intros c Hc. simpl in Hv.
    repeat (destruct Hv as [<-|Hv];
            [simpl in Hc; repeat (destruct Hc as [<-|Hc]; [reflexivity|]);
             contradiction|]).
    contradiction.
Qed.

Lemma kept_words_word_like r : Forall word_like (List.filter keep_word (split r)).
Proof.
  apply List.Forall_forall. intros w Hw. apply filter_In in Hw as [Hw _].
  now apply split_keeps_words in Hw.
Qed.

(** The words of the cleaned text are the kept words, in order. *)
Lemma split_cleaned r :
  split (cleaned_text r) = List.filter keep_word (split r).
Proof. apply split_join, kept_words_word_like. Qed.

Lemma keep_word_iff w :
  keep_word w = true ↔ 1 < String.length w ∧ ¬ In w stop_words.
Proof.
  unfold keep_word. rewrite andb_true_iff, negb_true_iff, mem_not_In.
  rewrite Nat.ltb_lt. reflexivity.
Qed.

Lemma above_threshold_iff q : above_threshold q = true ↔ (40 < q)%Q.
Proof.
  unfold above_threshold. rewrite negb_true_iff.
  split.
  - intros H. apply Qnot_le_lt. intros Hle.
    apply Qle_bool_iff in Hle. congruence.
  - intros H. destruct (Qle_bool q 40) eqn:E; [|reflexivity].
    apply Qle_bool_iff in E. exfalso. now apply (Qlt_not_le _ _ H).
Qed.

Lemma direct_match_iff r :
  direct_match (cleaned_text r) = true ↔
  ∃ token entry, In token (List.filter keep_word (split r))
                 ∧ In entry clip_words ∧ contains token entry = true.
Proof.
  unfold direct_match. rewrite existsb_exists. split.
  - intros [v [Hv Hc]]. unfold cleaned_text in Hc.
    rewrite contains_join in Hc by now apply clip_words_word_like.
    apply existsb_exists in Hc as [w [Hw Hc]]. eauto.
  - intros [w [v [Hw [Hv Hc]]]]. exists v. split; [assumption|].
    unfold cleaned_text. rewrite contains_join by now apply clip_words_word_like.
    apply existsb_exists. eauto.
Qed.

(** The fuzzy loop reports the first word that passes. *)
Lemma fuzzy_scan_Some words w q :
  fuzzy_scan words = Some (w, q) ↔
  ∃ before rest, words = before ++ w :: rest
    ∧ q = Fuzz.ratio "clip" w ∧ above_threshold q = true
    ∧ ∀ u, In u before → above_threshold (Fuzz.ratio "clip" u) = false.
Proof.
  induction words as [|x xs IH]; simpl.
  - split; [discriminate|]. intros [[|? ?] [? [H _]]]; discriminate.
  - destruct (above_threshold (Fuzz.ratio "clip" x)) eqn:E.
    + split.
      * intros [= <- <-]. exists [], xs. repeat split; auto.
        intros u [].
      * intros [[|b before] [rest [Heq [-> [Hq Hb]]]]].
        -- simpl in Heq. injection Heq as <- <-. reflexivity.
        -- simpl in Heq. injection Heq as <- _.
           specialize (Hb x (or_introl eq_refl)). congruence.
    + rewrite IH. split.
      * intros [before [rest [-> [-> [Hq Hb]]]]].
        exists (x :: before), rest. repeat split; auto.
        intros u [<-|Hu]; auto.
      * intros [[|b before] [rest [Heq [-> [Hq Hb]]]]].
        -- simpl in Heq. injection Heq as <- <-. congruence.
        -- simpl in Heq. injection Heq as <- ->.
           exists before, rest. repeat split; auto.
           intros u Hu. apply Hb. now right.
Qed.

Lemma fuzzy_scan_None words :
  fuzzy_scan words = None ↔
  ∀ u, In u words → above_threshold (Fuzz.ratio "clip" u) = false.
Proof.
  induction words as [|x xs IH]; simpl.
  - split; [intros _ u []|reflexivity].
  - destruct (above_threshold (Fuzz.ratio "clip" x)) eqn:E.
    + split; [discriminate|]. intros H.
      specialize (H x (or_introl eq_refl)). congruence.
    + rewrite IH. split.
      * intros H u [<-|Hu]; auto.
      * intros H u Hu. apply H. now right.
Qed.

End DetectorFacts.

Section Normalisation.
Import PyStr Detector.

Lemma length_append_string a b :
  String.length (a +:+ b) = String.length a + String.length b.
Proof. induction a as [|c a IH]; simpl; [reflexivity|now rewrite IH]. Qed.

Lemma join_at_least_first sep w ws :
  String.length w ≤ String.length (join sep (w :: ws)).
Proof.
  destruct ws as [|w2 ws]; [reflexivity|].
  change (join sep (w :: w2 :: ws)) with (w +:+ sep +:+ join sep (w2 :: ws)).
  rewrite length_append_string. lia.
Qed.

(** A cleaned text is empty or at least two characters long. *)
Lemma cleaned_text_short r :
  String.length (cleaned_text r) ≤ 1 → cleaned_text r = EmptyString.
Proof.
  unfold cleaned_text. destruct (List.filter keep_word (split r)) as [|w ws] eqn:E.
  - reflexivity.
  - intros Hlen. pose proof (join_at_least_first " " w ws) as Hw.
    assert (Hin : In w (List.filter keep_word (split r))) by (rewrite E; now left).
    apply filter_In in Hin as [_ Hk]. apply keep_word_iff in Hk as [Hk _]. lia.
Qed.

Lemma on_text_skips now text st :
  String.length (recognized_text text) ≤ 1
  ∨ String.length (cleaned_text (recognized_text text)) ≤ 1 →
  on_text now text st = (st, Skipped).
Proof.
  intros H. unfold on_text.
  destruct (truthy (recognized_text text)); simpl; [|reflexivity].
  destruct (1 <? String.length (recognized_text text)) eqn:Hl; [|reflexivity].
  apply Nat.ltb_lt in Hl. destruct H as [H|H]; [lia|].
  apply cleaned_text_short in H. rewrite H. reflexivity.
Qed.

End Normalisation.

(** C1, the claim as it stands fails: the cleaned utterance "quickly" has
    no token equal to an entry of the vocabulary and no token whose ratio
    against "clip" exceeds 40 (it is 400/11), and yet it is detected,
    because the direct match looks for "quick" inside the text. *)
Lemma quickly_is_detected_without_a_token_match :
  Detector.cleaned_text (Detector.recognized_text "quickly") = "quickly"
  ∧ Detector.detection_by_tokens "quickly" = false
  ∧ Detector.clip_detected (Detector.detect "quickly") = true
  ∧ ¬ (Detector.clip_detected (Detector.detect "quickly") = true
       ↔ Detector.detection_by_tokens "quickly" = true).
Proof.
  repeat split; try reflexivity.
  intros [H _]. specialize (H eq_refl). vm_compute in H. discriminate.
Qed.

(** C1, amended. Detection succeeds exactly when (a) some token of the
    cleaned utterance contains an entry of the vocabulary as a substring,
    or (b) no token does and some token has a ratio against "clip" above
    40; a fuzzy detection reports the first token that passes. *)
Theorem detection_is_substring_or_fuzzy (text : string) :
  let tokens := List.filter Detector.keep_word
                  (PyStr.split (Detector.recognized_text text)) in
  let cleaned := Detector.cleaned_text (Detector.recognized_text text) in
  let direct := ∃ token entry, In token tokens ∧ In entry Detector.clip_words
                               ∧ PyStr.contains token entry = true in
  PyStr.split cleaned = tokens
  ∧ (Detector.detect cleaned = Detector.DirectMatch ↔ direct)
  ∧ (∀ w q, Detector.detect cleaned = Detector.FuzzyMatch w q ↔
       ¬ direct
       ∧ ∃ before rest, tokens = before ++ w :: rest
           ∧ q = Fuzz.ratio "clip" w ∧ (40 < q)%Q
           ∧ ∀ u, In u before → ¬ (40 < Fuzz.ratio "clip" u)%Q)
  ∧ (Detector.clip_detected (Detector.detect cleaned) = true ↔
       direct ∨ (¬ direct ∧ ∃ w, In w tokens ∧ (40 < Fuzz.ratio "clip" w)%Q)).
Proof.
  intros tokens cleaned direct.
  assert (Hsplit : PyStr.split cleaned = tokens) by apply split_cleaned.
  assert (Hdirect : Detector.direct_match cleaned = true ↔ direct)
    by apply direct_match_iff.
  assert (Hlow : ∀ u, Detector.above_threshold (Fuzz.ratio "clip" u) = false
                      ↔ ¬ (40 < Fuzz.ratio "clip" u)%Q).
  { intros u. rewrite <- above_threshold_iff.
    destruct (Detector.above_threshold _); split; congruence. }
  assert (Hfuzzy : ∀ w q, Detector.fuzzy_scan tokens = Some (w, q) ↔
      ∃ before rest, tokens = before ++ w :: rest
        ∧ q = Fuzz.ratio "clip" w ∧ (40 < q)%Q
        ∧ ∀ u, In u before → ¬ (40 < Fuzz.ratio "clip" u)%Q).
  { intros w q. rewrite fuzzy_scan_Some. split.
    - intros (b & r & ? & ? & Hq & Hb). exists b, r. repeat split; auto.
      + now apply above_threshold_iff.
      + intros u Hu. apply Hlow. auto.
    - intros (b & r & ? & ? & Hq & Hb). exists b, r. repeat split; auto.
      + now apply above_threshold_iff.
      + intros u Hu. apply Hlow. auto. }
  split; [exact Hsplit|]. unfold Detector.detect. rewrite Hsplit.
  destruct (Detector.direct_match cleaned) eqn:Hd.
  - assert (Hyes : direct) by now apply Hdirect.
    split; [tauto|]. split.
    + intros w q. split; [discriminate|tauto].
    + simpl. tauto.
  - assert (Hno : ¬ direct) by (rewrite <- Hdirect; congruence).
    destruct (Detector.fuzzy_scan tokens) as [[w0 q0]|] eqn:Hf.
    + pose proof (proj1 (Hfuzzy w0 q0) eq_refl) as (b & r & Hb1 & Hb2 & Hb3 & Hb4).
      split; [split; [discriminate|tauto]|]. split.
      * intros w q. rewrite <- Hfuzzy. split.
        -- intros [= <- <-]. tauto.
        -- intros [_ [= <- <-]]. reflexivity.
      * simpl. split; [|reflexivity]. intros _. right. split; [assumption|].
        exists w0. split; [rewrite Hb1; apply in_elt|]. now rewrite <- Hb2.
    + split; [split; [discriminate|tauto]|]. split.
      * intros w q. rewrite <- Hfuzzy. split; [discriminate|].
        intros [_ H]. discriminate.
      * simpl. split; [discriminate|]. intros [H|[_ [w [Hw Hq]]]]; [tauto|].
        rewrite fuzzy_scan_None in Hf. specialize (Hf w Hw).
        apply Hlow in Hf. tauto.
Qed.

(** ** Bounded deques *)

Section DequeFacts.
Context {A : Type}.
Import Deque.

Lemma length_last_n n (l : list A) : length (last_n n l) ≤ n.
Proof. unfold last_n. rewrite length_drop. lia. Qed.

Lemma tail_drop (l : list A) : tail l = drop 1 l.
Proof. now destruct l. Qed.

Lemma append_maxlen (d : deque A) x : maxlen (append d x) = maxlen d.
Proof. unfold append. now destruct (maxlen d). Qed.

(** What [append] does to the items, by cases on the room left. *)
Lemma append_items (d : deque A) m x :
  maxlen d = Some m →
  items (append d x)
  = if (N.of_nat (length (items d)) <? m)%N then items d ++ [x]
    else tail (items d ++ [x]).
Proof.
  intros Hm. unfold append. rewrite Hm. simpl.
  rewrite length_app. simpl.
  destruct (N.ltb_spec m (N.of_nat (length (items d) + 1)));
    destruct (N.ltb_spec (N.of_nat (length (items d))) m);
    try reflexivity; lia.
Qed.

(** A bounded deque that holds the last [m] of a history holds the last
    [m] of the longer history after an [append]. *)
Lemma append_last_n (d : deque A) m h x :
  maxlen d = Some m →
  items d = last_n (N.to_nat m) h →
  items (append d x) = last_n (N.to_nat m) (h ++ [x]).
Proof.
  intros Hm Hi. rewrite (append_items d m x Hm), Hi.
  unfold last_n. rewrite length_app, length_drop. simpl.
  destruct (N.ltb_spec (N.of_nat (length h - (length h - N.to_nat m))) m) as [Hlt|Hge].
  - assert (length h < N.to_nat m) by lia.
    replace (length h - N.to_nat m) with 0 by lia.
    replace (length h + 1 - N.to_nat m) with 0 by lia. reflexivity.
  - assert (N.to_nat m ≤ length h) by lia.
    rewrite tail_drop.
    rewrite <- (drop_app_le h [x] (length h - N.to_nat m)) by lia.
    rewrite drop_drop. f_equal. lia.
Qed.

Lemma push_all_last_n xs : ∀ (d : deque A) m h,
  maxlen d = Some m →
  items d = last_n (N.to_nat m) h →
  maxlen (Clipper.push_all d xs) = Some m
  ∧ items (Clipper.push_all d xs) = last_n (N.to_nat m) (h ++ xs).
Proof.
  induction xs as [|x xs IH]; intros d m h Hm Hi; simpl.
  - now rewrite app_nil_r.
  - replace (h ++ x :: xs) with ((h ++ [x]) ++ xs) by now rewrite <- app_assoc.
    apply IH.
    + now rewrite append_maxlen.
    + now apply append_last_n.
Qed.

End DequeFacts.

(** ** Cooldown and duplicates *)

Section DebounceFacts.
Import PyStr Detector.

Lemma on_text_triggered now text st :
  trigger_worthy text = true →
  on_text now text st =
    let cleaned := cleaned_text (recognized_text text) in
    if negb (Qle_bool (now - last_clip_time st) 2) then
      if negb (mem cleaned (Deque.items (recent_commands st))) then
        ({| recent_commands := Deque.append (recent_commands st) cleaned;
            last_clip_time := now |}, ClipStarted)
      else (st, DuplicateIgnored)
    else (st, PleaseWait).
Proof.
  unfold trigger_worthy, on_text. intros H.
  apply andb_true_iff in H as [H H3]. apply andb_true_iff in H as [H H2].
  rewrite H, H2, H3. reflexivity.
Qed.

Lemma on_text_not_triggered now text st :
  trigger_worthy text = false →
  fst (on_text now text st) = st
  ∧ (snd (on_text now text st) = Skipped ∨ snd (on_text now text st) = NoCommand).
Proof.
  unfold trigger_worthy, on_text. intros H.
  destruct (truthy (recognized_text text) && (1 <? String.length (recognized_text text)));
    [|simpl; auto].
  destruct (truthy (cleaned_text (recognized_text text))); [|simpl; auto].
  simpl in H. rewrite H. simpl. auto.
Qed.

(** Only a started clip changes the state. *)
Lemma on_text_cases now text st :
  (fst (on_text now text st) = st ∧ snd (on_text now text st) ≠ ClipStarted)
  ∨ (trigger_worthy text = true
     ∧ on_text now text st =
         ({| recent_commands :=
               Deque.append (recent_commands st) (cleaned_text (recognized_text text));
             last_clip_time := now |}, ClipStarted)).
Proof.
  destruct (trigger_worthy text) eqn:Ht.
  - rewrite (on_text_triggered now text st Ht). cbv zeta.
    destruct (negb (Qle_bool (now - last_clip_time st) 2));
      [destruct (negb (mem _ _))|]; simpl; auto; left; split; auto; discriminate.
  - destruct (on_text_not_triggered now text st Ht) as [H1 [H2|H2]];
      left; rewrite H1, H2; split; auto; discriminate.
Qed.

Lemma within_cooldown now last : (now - last < 2)%Q → Qle_bool (now - last) 2 = true.
Proof. intros H. apply Qle_bool_iff. now apply Qlt_le_weak. Qed.

Lemma outside_cooldown now last : (2 < now - last)%Q → Qle_bool (now - last) 2 = false.
Proof.
  intros H. destruct (Qle_bool (now - last) 2) eqn:E; [|reflexivity].
  apply Qle_bool_iff in E. exfalso. now apply (Qlt_not_le _ _ H).
Qed.

(** The deque of recent commands holds the last three accepted texts. *)
Lemma listen_keeps_last_three us : ∀ st h,
  Deque.maxlen (recent_commands st) = Some 3%N →
  Deque.items (recent_commands st) = Deque.last_n 3 h →
  Deque.maxlen (recent_commands (fst (listen us st))) = Some 3%N
  ∧ Deque.items (recent_commands (fst (listen us st)))
    = Deque.last_n 3 (h ++ accepted us st).
Proof.
  induction us as [|[now text] us IH]; intros st h Hm Hi.
  - simpl. now rewrite app_nil_r.
  - simpl. destruct (on_text_cases now text st) as [[Hst Ho]|[_ Heq]].
    + destruct (on_text now text st) as [st1 o] eqn:E. simpl in Hst, Ho.
      subst st1. specialize (IH st h Hm Hi).
      destruct (listen us st) as [st2 os]. simpl in *.
      destruct o; try assumption. congruence.
    + rewrite Heq.
      set (cleaned := cleaned_text (recognized_text text)) in *.
      set (st1 := {| recent_commands := Deque.append (recent_commands st) cleaned;
                     last_clip_time := now |}).
      specialize (IH st1 (h ++ [cleaned])).
      destruct (listen us st1) as [st2 os]. simpl in *.
      rewrite <- app_assoc in IH. simpl in IH. apply IH.
      * now rewrite append_maxlen.
      * now apply (append_last_n (recent_commands st) 3%N h cleaned).
Qed.

End DebounceFacts.

(** C5. When a trigger-worthy utterance has been accepted at time [now1]
    (the time is recorded as the last accepted one), a second
    trigger-worthy utterance that arrives less than 2 seconds later is
    answered "please wait" and starts no clip, so the two together start
    exactly one. *)
Theorem cooldown_suppresses_second_trigger
    (st : Detector.state) (now1 now2 : Q) (text1 text2 : string) :
  Detector.trigger_worthy text1 = true →
  Detector.trigger_worthy text2 = true →
  snd (Detector.on_text now1 text1 st) = Detector.ClipStarted →
  (now2 - now1 < 2)%Q →
  let st1 := fst (Detector.on_text now1 text1 st) in
  Detector.last_clip_time st1 = now1
  ∧ Detector.on_text now2 text2 st1 = (st1, Detector.PleaseWait)
  ∧ Detector.listen [(now1, text1); (now2, text2)] st
    = (st1, [Detector.ClipStarted; Detector.PleaseWait])
  ∧ Detector.count_started
      (snd (Detector.listen [(now1, text1); (now2, text2)] st)) = 1.
Proof.
  intros _ H2 Hacc Hclose st1.
  assert (Hst1 : Detector.on_text now1 text1 st = (st1, Detector.ClipStarted)).
  { unfold st1. rewrite <- Hacc. now destruct (Detector.on_text now1 text1 st). }
  assert (Hlast : Detector.last_clip_time st1 = now1).
  { destruct (on_text_cases now1 text1 st) as [[_ Hne]|[_ Heq]]; [congruence|].
    unfold st1. rewrite Heq. reflexivity. }
  assert (Hwait : Detector.on_text now2 text2 st1 = (st1, Detector.PleaseWait)).
  { rewrite (on_text_triggered now2 text2 st1 H2). cbv zeta.
    rewrite Hlast, (within_cooldown _ _ Hclose). reflexivity. }
  repeat split; try assumption.
  - simpl. rewrite Hst1, Hwait. reflexivity.
  - simpl. rewrite Hst1, Hwait. reflexivity.
Qed.

Lemma cooldown_suppresses_second_trigger_witness :
  let st1 := fst (Detector.on_text 1000 "clip that" Detector.initial) in
  Detector.last_clip_time st1 = 1000%Q
  ∧ Detector.on_text (2001 # 2) "clip it" st1 = (st1, Detector.PleaseWait)
  ∧ Detector.listen [(1000%Q, "clip that"); ((2001 # 2)%Q, "clip it")]
      Detector.initial
    = (st1, [Detector.ClipStarted; Detector.PleaseWait])
  ∧ Detector.count_started
      (snd (Detector.listen [(1000%Q, "clip that"); ((2001 # 2)%Q, "clip it")]
              Detector.initial)) = 1.
Proof.
  apply (cooldown_suppresses_second_trigger Detector.initial 1000 (2001 # 2)
           "clip that" "clip it"); reflexivity.
Defined.

(** C6. After any run of the loop the recent commands are the last three
    accepted texts. A trigger-worthy utterance outside the cooldown is
    rejected as a duplicate exactly when its cleaned text is among them;
    otherwise it starts a clip, its time is recorded, and its text is
    appended, the oldest of three being dropped. *)
Theorem duplicate_iff_among_last_three
    (utterances : list (Q * string)) (now : Q) (text : string) :
  let st := fst (Detector.listen utterances Detector.initial) in
  let history := Detector.accepted utterances Detector.initial in
  let cleaned := Detector.cleaned_text (Detector.recognized_text text) in
  let recent := Deque.items (Detector.recent_commands st) in
  Detector.trigger_worthy text = true →
  (2 < now - Detector.last_clip_time st)%Q →
  recent = Deque.last_n 3 history
  ∧ length recent ≤ 3
  ∧ (snd (Detector.on_text now text st) = Detector.DuplicateIgnored
     ↔ In cleaned (Deque.last_n 3 history))
  ∧ (snd (Detector.on_text now text st) = Detector.ClipStarted
     ↔ ¬ In cleaned (Deque.last_n 3 history))
  ∧ (¬ In cleaned (Deque.last_n 3 history) →
     let st' := fst (Detector.on_text now text st) in
     Detector.last_clip_time st' = now
     ∧ Deque.items (Detector.recent_commands st')
       = (if length recent =? 3 then tail recent else recent) ++ [cleaned]
     ∧ Deque.items (Detector.recent_commands st')
       = Deque.last_n 3 (history ++ [cleaned])).
Proof.
  intros st history cleaned recent Ht Hout.
  destruct (listen_keeps_last_three utterances Detector.initial [] eq_refl eq_refl)
    as [Hm Hi].
  simpl in Hi. fold st in Hm, Hi. fold history in Hi. fold recent in Hi.
  assert (Hlen : length recent ≤ 3) by (rewrite Hi; apply length_last_n).
  rewrite (on_text_triggered now text st Ht). cbv zeta.
  rewrite (outside_cooldown _ _ Hout). fold cleaned. fold recent. simpl negb at 1.
  cbv iota. rewrite <- Hi.
  split; [reflexivity|]. split; [assumption|].
  destruct (PyStr.mem cleaned recent) eqn:Hmem; simpl.
  - apply mem_In in Hmem. repeat split; try tauto; try discriminate.
  - apply mem_not_In in Hmem. split; [split; [discriminate|tauto]|].
    split; [tauto|]. intros _. split; [reflexivity|].
    assert (Happ : Deque.items (Deque.append (Detector.recent_commands st) cleaned)
                   = Deque.last_n 3 (history ++ [cleaned]))
      by now apply (append_last_n (Detector.recent_commands st) 3%N history cleaned).
    split; [|exact Happ].
    rewrite (append_items _ 3%N cleaned Hm). fold recent.
    destruct (N.ltb_spec (N.of_nat (length recent)) 3);
      destruct (Nat.eqb_spec (length recent) 3); try lia; try reflexivity.
    destruct recent as [|r0 recent']; [simpl in *; lia|reflexivity].
Qed.

Lemma duplicate_iff_among_last_three_witness :
  let us := [(1000%Q, "clip one"); (1010%Q, "clip two"); (1020%Q, "clip three");
             (1030%Q, "clip four")] in
  let st := fst (Detector.listen us Detector.initial) in
  Deque.items (Detector.recent_commands st) = ["clip two"; "clip three"; "clip four"]
  ∧ snd (Detector.on_text 1040 "clip two" st) = Detector.DuplicateIgnored
  ∧ snd (Detector.on_text 1040 "clip one" st) = Detector.ClipStarted
  ∧ Deque.items (Detector.recent_commands (fst (Detector.on_text 1040 "clip one" st)))
    = ["clip three"; "clip four"; "clip one"].
Proof.
  intros us st.
  pose proof (duplicate_iff_among_last_three us 1040 "clip two" eq_refl eq_refl)
    as (H1 & _ & H2 & _).
  pose proof (duplicate_iff_among_last_three us 1040 "clip one" eq_refl eq_refl)
    as (_ & _ & _ & H3 & H4).
  split; [exact H1|]. split.
  - apply H2. vm_compute. auto.
  - assert (Hnot : ¬ In "clip one" (Deque.last_n 3 (Detector.accepted us Detector.initial))).
    { vm_compute. intros H. repeat destruct H as [H|H]; try discriminate H. exact H. }
    split; [now apply H3|]. destruct (H4 Hnot) as (_ & _ & H5).
    etransitivity; [exact H5|reflexivity].
Defined.

(** C10. A trigger that is detected and then suppressed, by the cooldown
    or as a duplicate, leaves the state as it was: the time of the last
    accepted trigger and the recent commands are unchanged. *)
Theorem suppressed_trigger_leaves_state
    (now : Q) (text : string) (st : Detector.state) :
  snd (Detector.on_text now text st) = Detector.PleaseWait
  ∨ snd (Detector.on_text now text st) = Detector.DuplicateIgnored →
  fst (Detector.on_text now text st) = st
  ∧ Detector.last_clip_time (fst (Detector.on_text now text st))
    = Detector.last_clip_time st
  ∧ Detector.recent_commands (fst (Detector.on_text now text st))
    = Detector.recent_commands st.
Proof.
  intros H. destruct (on_text_cases now text st) as [[Hst _]|[_ Heq]].
  - now rewrite Hst.
  - rewrite Heq in H. simpl in H. destruct H; discriminate.
Qed.

Lemma suppressed_trigger_leaves_state_witness :
  let st := fst (Detector.on_text 1000 "clip that" Detector.initial) in
  fst (Detector.on_text 1001 "clip it" st) = st
  ∧ Detector.last_clip_time (fst (Detector.on_text 1001 "clip it" st))
    = Detector.last_clip_time st
  ∧ Detector.recent_commands (fst (Detector.on_text 1001 "clip it" st))
    = Detector.recent_commands st.
Proof.
  apply (suppressed_trigger_leaves_state 1001 "clip it"
           (fst (Detector.on_text 1000 "clip that" Detector.initial))).
  left. reflexivity.
Defined.

(** ** What a computation leaves behind *)

Section ClipperFacts.
Import Clipper.

(** The computation leaves [self] alone and adds events that all
    satisfy [ok]; [post] relates its outcome to the events added. *)
Definition runs {A} (c : M A) (post : result A → list event → Prop) : Prop :=
  ∀ e m, ∃ evs,
    self (snd (c e m)) = self m
    ∧ trace (snd (c e m)) = trace m ++ evs
    ∧ post (fst (c e m)) evs.

Definition calm_event (ev : event) : Prop :=
  is_lock_event ev = false ∧ is_encoder_run ev = false.

(** Neither the lock nor the encoder is touched. *)
Definition calm {A} (c : M A) : Prop :=
  runs c (fun _ evs => Forall calm_event evs).

(** Whatever the encoder ended in is the outcome. *)
Definition encoder_decides (r : result unit) (evs : list event) : Prop :=
  Forall (fun ev => is_lock_event ev = false) evs
  ∧ ∀ command res, In (EncoderRun command res) evs →
      r = match failure_of res with Some x => Raise x | None => Ok tt end.

Lemma calm_ret {A} (a : A) : calm (ret a).
Proof. intros e m. exists []. simpl. rewrite app_nil_r. auto. Qed.

Lemma calm_raise {A} x : calm (@raise A x).
Proof. intros e m. exists []. simpl. rewrite app_nil_r. auto. Qed.

Lemma calm_ask : calm ask.
Proof. intros e m. exists []. simpl. rewrite app_nil_r. auto. Qed.

Lemma calm_get_self : calm get_self.
Proof. intros e m. exists []. simpl. rewrite app_nil_r. auto. Qed.

Lemma calm_get_files : calm get_files.
Proof. intros e m. exists []. simpl. rewrite app_nil_r. auto. Qed.

Lemma calm_put_files fs : calm (put_files fs).
Proof. intros e m. exists []. simpl. rewrite app_nil_r. auto. Qed.

Lemma calm_emit ev : calm_event ev → calm (emit ev).
Proof. intros H e m. exists [ev]. simpl. auto. Qed.

Lemma calm_bind {A B} (c : M A) (k : A → M B) :
  calm c → (∀ a, calm (k a)) → calm (bind c k).
Proof.
  intros Hc Hk e m. unfold bind.
  destruct (Hc e m) as (evs1 & Hs1 & Ht1 & Hp1).
  destruct (c e m) as [[a|x] m1]; simpl in *.
  - destruct (Hk a e m1) as (evs2 & Hs2 & Ht2 & Hp2).
    exists (evs1 ++ evs2). rewrite Hs2, Ht2, Hs1, Ht1, app_assoc.
    repeat split; auto. apply Forall_app; auto.
  - exists evs1. auto.
Qed.

(** A calm prefix does not disturb what follows it. *)
Lemma runs_after_calm {A} (c : M A) (k : A → M unit) :
  calm c → (∀ a, runs (k a) encoder_decides) →
  runs (bind c k) encoder_decides.
Proof.
  intros Hc Hk e m. unfold bind.
  destruct (Hc e m) as (evs1 & Hs1 & Ht1 & Hp1).
  assert (Hno : ∀ command res, ¬ In (EncoderRun command res) evs1).
  { intros command res Hin.
    pose proof (proj1 (List.Forall_forall _ _) Hp1 _ Hin) as [_ Hcalm].
    discriminate. }
  assert (Hlock : Forall (fun ev => is_lock_event ev = false) evs1).
  { eapply Forall_impl; [exact Hp1|]. now intros ev [? _]. }
  destruct (c e m) as [[a|x] m1]; simpl in *.
  - destruct (Hk a e m1) as (evs2 & Hs2 & Ht2 & Hl2 & Hp2).
    exists (evs1 ++ evs2). rewrite Hs2, Ht2, Hs1, Ht1, app_assoc.
    repeat split; auto.
    + apply Forall_app; auto.
    + intros command res Hin. apply in_app_or in Hin as [Hin|Hin].
      * now apply Hno in Hin.
      * eauto.
  - exists evs1. repeat split; auto.
    intros command res Hin. now apply Hno in Hin.
Qed.

Create HintDb calm discriminated.
Hint Resolve calm_ret calm_raise calm_ask calm_get_self calm_get_files
  calm_put_files : calm.

Ltac calm_step :=
  first [ apply calm_bind; [|intros ?]
        | apply calm_emit; split; reflexivity
        | solve [auto with calm] ].

Lemma calm_print msg : calm (print msg).
Proof. apply calm_emit. split; reflexivity. Qed.

Lemma calm_path_exists path : calm (path_exists path).
Proof. unfold path_exists. repeat calm_step. Qed.

Lemma calm_remove path : calm (remove path).
Proof.
  unfold remove. apply calm_bind; [auto with calm|]. intros e.
  destruct (removable e path); repeat calm_step.
Qed.

Lemma calm_open_write path initial : calm (open_write path initial).
Proof.
  unfold open_write. apply calm_bind; [auto with calm|]. intros e.
  destruct (writable e path); repeat calm_step.
Qed.

Lemma calm_write_frame path frame : calm (write_frame path frame).
Proof.
  unfold write_frame. destruct frame; [|auto with calm].
  apply calm_bind; [auto with calm|]. intros fs.
  destruct (fs !! path) as [[old|? ? ? ?]|]; auto with calm.
Qed.

Lemma calm_write_frames path frames : calm (write_frames path frames).
Proof.
  induction frames as [|frame rest IH]; simpl; [auto with calm|].
  apply calm_bind; [apply calm_write_frame|intros _; exact IH].
Qed.

Lemma calm_write_wave path blocks : calm (write_wave path blocks).
Proof.
  unfold write_wave. apply calm_bind; [apply calm_open_write|]. intros _.
  destruct (join_blocks blocks); repeat calm_step.
Qed.

Lemma run_checked_decides command msg :
  runs (bind (run_checked command) (fun _ => print msg)) encoder_decides.
Proof.
  intros e m. unfold run_checked, print.
  cbv [bind ask get_files put_files emit ret raise].
  destruct (encoder e command (files m)) as [fs' r] eqn:E. simpl.
  destruct r as [rc stderr|x]; simpl.
  - destruct (rc =? 0)%Z eqn:Hrc; simpl.
    + exists [EncoderRun command (Completed rc stderr); Print msg].
      repeat split; auto; [now rewrite <- app_assoc|].
      intros c0 r0 [[= <- <-]|[H|[]]]; [|discriminate]. simpl. now rewrite Hrc.
    + exists [EncoderRun command (Completed rc stderr)].
      repeat split; auto.
      intros c0 r0 [[= <- <-]|[]]. simpl. now rewrite Hrc.
  - exists [EncoderRun command (RunRaised x)]. repeat split; auto.
    intros c0 r0 [[= <- <-]|[]]. reflexivity.
Qed.

Lemma materialize_and_encode_decides tv ta out :
  runs (materialize_and_encode tv ta out) encoder_decides.
Proof.
  unfold materialize_and_encode.
  apply runs_after_calm; [apply calm_open_write|]. intros _.
  apply runs_after_calm; [auto with calm|]. intros c.
  apply runs_after_calm; [apply calm_emit; split; reflexivity|]. intros _.
  apply runs_after_calm; [apply calm_write_frames|]. intros _.
  apply runs_after_calm.
  { destruct (nonempty (audio_buffer c)); [apply calm_write_wave|auto with calm]. }
  intros _.
  apply runs_after_calm; [auto with calm|]. intros e.
  apply runs_after_calm; [apply calm_path_exists|]. intros has_audio.
  apply runs_after_calm; [apply calm_print|]. intros _.
  apply run_checked_decides.
Qed.

End ClipperFacts.

Section SaveClipFacts.
Import Clipper.

Lemma exists_then_delete (fs : gmap string file) path :
  (if bool_decide (is_Some (fs !! path)) then delete path fs else fs)
  = delete path fs.
Proof.
  case_bool_decide as H; [reflexivity|].
  symmetry. apply delete_id. now apply eq_None_not_Some.
Qed.

Lemma remove_if_exists path e m :
  ∃ r fs evs,
    bind (path_exists path) (fun v => if v then remove path else ret tt) e m
    = (r, mk_machine (self m) fs (trace m ++ evs))
    ∧ Forall calm_event evs
    ∧ (cleanable e (files m) path → r = Ok tt ∧ fs = delete path (files m)).
Proof.
  unfold path_exists, remove.
  cbv [bind get_files ret put_files emit ask raise]. simpl.
  case_bool_decide as Hex.
  - destruct (removable e path) eqn:Hrm; simpl.
    + exists (Ok tt), (delete path (files m)), [Removed path].
      split_and!; [reflexivity|repeat constructor|auto].
    + exists (Raise (PyException "OSError")), (files m), [].
      rewrite app_nil_r. destruct m. split_and!; [reflexivity|constructor|].
      intros [Hnone|?]; [|congruence].
      simpl in Hex, Hnone. rewrite Hnone in Hex. destruct Hex; discriminate.
  - exists (Ok tt), (files m), []. rewrite app_nil_r. destruct m.
    split_and!; [reflexivity|constructor|].
    intros _. split; [reflexivity|].
    simpl. symmetry. apply delete_id. now apply eq_None_not_Some.
Qed.

(** The clean-up: when each temporary file that is there can be removed,
    it returns and neither file is left. *)
Lemma cleanup_runs tv ta e m :
  ∃ r fs evs,
    cleanup tv ta e m = (r, mk_machine (self m) fs (trace m ++ evs))
    ∧ Forall calm_event evs
    ∧ (cleanable e (files m) tv → cleanable e (files m) ta →
       r = Ok tt ∧ fs = delete ta (delete tv (files m))).
Proof.
  unfold cleanup.
  change (∃ r fs evs,
    bind (bind (path_exists tv) (fun v => if v then remove tv else ret tt))
      (fun _ => bind (path_exists ta) (fun a => if a then remove ta else ret tt))
      e m = (r, mk_machine (self m) fs (trace m ++ evs))
    ∧ Forall calm_event evs
    ∧ (cleanable e (files m) tv → cleanable e (files m) ta →
       r = Ok tt ∧ fs = delete ta (delete tv (files m)))).
  unfold bind at 1.
  destruct (remove_if_exists tv e m) as (r1 & fs1 & evs1 & -> & Hc1 & Hok1).
  destruct r1 as [[]|x].
  - destruct (remove_if_exists ta e (mk_machine (self m) fs1 (trace m ++ evs1)))
      as (r2 & fs2 & evs2 & -> & Hc2 & Hok2).
    exists r2, fs2, (evs1 ++ evs2). simpl. rewrite <- app_assoc.
    split; [reflexivity|]. split; [now apply Forall_app|].
    intros Hv Ha. destruct (Hok1 Hv) as [_ ->]. simpl in Hok2.
    destruct Hok2 as [-> ->]; [|auto].
    destruct Ha as [Ha|Ha]; [left|now right].
    rewrite lookup_delete. case_decide; auto.
  - exists (Raise x), fs1, evs1. split; [reflexivity|]. split; [assumption|].
    intros Hv _. destruct (Hok1 Hv) as [? _]. discriminate.
Qed.

(** Either [except] clause prints the error and returns. *)
Lemma on_error_runs x e m :
  ∃ more, on_error x e m
          = (Ok tt, mk_machine (self m) (files m)
                      (trace m ++ Print (ErrorSavingClip x) :: more))
          ∧ Forall calm_event more.
Proof.
  destruct x as [rc stderr|name|name]; simpl;
    try (exists []; split; [reflexivity|constructor]).
  cbv [bind print emit]. simpl.
  destruct (PyStr.truthy stderr); simpl.
  - exists [Print (FFmpegError stderr)]. rewrite <- app_assoc.
    split; [reflexivity|]. repeat constructor.
  - exists []. split; [reflexivity|constructor].
Qed.

(** What [save_clip] comes to when there are frames: the locked region
    spans the [try] body, the handler and the clean-up. When each
    temporary file that is there at the end can be removed, the call
    returns unless a bare exception is pending, and neither file is
    left. *)
Lemma save_clip_runs e m :
  nonempty (frame_buffer (self m)) = true →
  let c := count_up (self m) in
  let tv := temp_video_of e c in
  let ta := temp_audio_of e c in
  let out := output_filename_of e c in
  let m0 := mk_machine c (files m) (trace m ++ [Acquire; Print (SavingClipTo out)]) in
  let rb := fst (materialize_and_encode tv ta out e m0) in
  let mb := snd (materialize_and_encode tv ta out e m0) in
  ∃ r fs body_events later_events,
    encoder_decides rb body_events
    ∧ Forall calm_event later_events
    ∧ (∀ x, rb = Raise x → is_Exception x = true →
            In (Print (ErrorSavingClip x)) later_events)
    ∧ save_clip e m
      = (r, mk_machine c fs
              (trace m ++ [Acquire; Print (SavingClipTo out)]
                 ++ body_events ++ later_events ++ [Release]))
    ∧ (cleanable e (files mb) tv → cleanable e (files mb) ta →
       r = match rb with
           | Raise x => if is_Exception x then Ok tt else Raise x
           | Ok _ => Ok tt
           end
       ∧ fs = delete ta (delete tv (files mb))).
Proof.
  intros Hne c tv ta out m0 rb mb.
  destruct (materialize_and_encode_decides tv ta out e m0)
    as (body_events & Hself & Htrace & Hdec).
  fold rb in Hdec. fold mb in Hself, Htrace. simpl in Hself, Htrace.
  assert (Hrun : save_clip e m =
    let '(r, m1) := try_except (materialize_and_encode tv ta out) on_error e m0 in
    match cleanup tv ta e m1 with
    | (Ok _, m2) => (r, mk_machine (self m2) (files m2) (trace m2 ++ [Release]))
    | (Raise x, m2) => (Raise x, mk_machine (self m2) (files m2) (trace m2 ++ [Release]))
    end).
  { unfold save_clip, with_lock.
    cbv [bind emit get_self put_self ask print try_finally]. simpl.
    rewrite Hne. simpl. rewrite <- app_assoc. simpl.
    fold c. fold out. fold tv. fold ta. fold m0.
    destruct (try_except (materialize_and_encode tv ta out) on_error e m0) as [r m1].
    destruct (cleanup tv ta e m1) as [[[]|x] m2]; reflexivity. }
  rewrite Hrun. unfold try_except.
  destruct (materialize_and_encode tv ta out e m0) as [rb0 mb0] eqn:Hbody.
  simpl in rb, mb. subst rb mb.
  assert (Hafter : ∀ (r1 : result unit) more,
    Forall calm_event more →
    ∃ (r : result unit) fs later,
      match cleanup tv ta e
              (mk_machine (self mb0) (files mb0) (trace mb0 ++ more)) with
      | (Ok _, m2) => (r1, mk_machine (self m2) (files m2) (trace m2 ++ [Release]))
      | (Raise x, m2) =>
          (Raise x, mk_machine (self m2) (files m2) (trace m2 ++ [Release]))
      end
      = (r, mk_machine c fs
              (trace m ++ [Acquire; Print (SavingClipTo out)]
                 ++ body_events ++ (more ++ later) ++ [Release]))
      ∧ Forall calm_event (more ++ later)
      ∧ (cleanable e (files mb0) tv → cleanable e (files mb0) ta →
         r = r1 ∧ fs = delete ta (delete tv (files mb0)))).
  { intros r1 more Hmore.
    destruct (cleanup_runs tv ta e
                (mk_machine (self mb0) (files mb0) (trace mb0 ++ more)))
      as (rc & fs & evs & -> & Hevs & Hok).
    cbn [self files trace] in *.
    assert (Htr : ((trace mb0 ++ more) ++ evs) ++ [Release]
                  = trace m ++ [Acquire; Print (SavingClipTo out)]
                      ++ body_events ++ (more ++ evs) ++ [Release]).
    { rewrite Htrace. unfold m0. simpl. now rewrite <- !app_assoc. }
    destruct rc as [[]|x].
    - exists r1, fs, evs. rewrite Htr, Hself.
      split_and!; [reflexivity|now apply Forall_app|].
      intros Hv Ha. now destruct (Hok Hv Ha) as [_ ->].
    - exists (Raise x), fs, evs. rewrite Htr, Hself.
      split_and!; [reflexivity|now apply Forall_app|].
      intros Hv Ha. destruct (Hok Hv Ha) as [? _]. discriminate. }
  destruct rb0 as [[]|x].
  - destruct (Hafter (Ok tt) [] ltac:(constructor)) as (r & fs & later & Hrun' & Hcalm & Hok).
    rewrite app_nil_r in Hrun'. destruct mb0. simpl in *.
    exists r, fs, body_events, later.
    split_and!; try apply Hdec; auto. discriminate.
  - destruct (is_Exception x) eqn:Hx.
    + destruct (on_error_runs x e mb0) as (more & -> & Hmore).
      destruct (Hafter (Ok tt) (Print (ErrorSavingClip x) :: more))
        as (r & fs & later & Hrun' & Hcalm & Hok).
      { constructor; [split; reflexivity|assumption]. }
      exists r, fs, body_events, ((Print (ErrorSavingClip x) :: more) ++ later).
      split_and!; try apply Hdec; auto.
      intros y [= <-] _. now left.
    + destruct (Hafter (Raise x) [] ltac:(constructor)) as (r & fs & later & Hrun' & Hcalm & Hok).
      rewrite app_nil_r in Hrun'. destruct mb0. simpl in *.
      exists r, fs, body_events, later.
      split_and!; try apply Hdec; auto.
      intros y [= <-]. congruence.
Qed.

(** With no frames the call prints one line under the lock and leaves. *)
Lemma save_clip_no_frames e m :
  nonempty (frame_buffer (self m)) = false →
  save_clip e m
  = (Ok tt, mk_machine (self m) (files m)
              (trace m ++ [Acquire; Print NoFramesToSave; Release])).
Proof.
  intros Hne. unfold save_clip, with_lock.
  cbv [bind emit get_self put_self ask print try_finally]. simpl.
  rewrite Hne. simpl. now rewrite <- !app_assoc.
Qed.

End SaveClipFacts.

Section EventsFacts.
Import Clipper.

Lemma events_of_app {A} (c : M A) e m evs :
  trace (snd (c e m)) = trace m ++ evs → events_of c e m = evs.
Proof. intros H. unfold events_of. rewrite H. apply drop_app_length. Qed.

Lemma nonempty_false b :
  nonempty b = false ↔ b = None ∨ ∃ d, b = Some d ∧ Deque.items d = [].
Proof.
  destruct b as [d|]; simpl.
  - destruct (Deque.items d) eqn:E; split.
    + intros _. right. eauto.
    + reflexivity.
    + discriminate.
    + intros [H|[d' [H1 H2]]]; [discriminate|].
      injection H1 as <-. congruence.
  - split; auto.
Qed.

End EventsFacts.

(** C4. When the frame buffer is unset or empty, [save_clip] returns
    after printing "No frames to save": the files are what they were, so
    neither the output file nor a temporary file is created, and the
    clipper is unchanged. *)
Theorem save_clip_without_frames_creates_nothing
    (e : Clipper.env) (m : Clipper.machine) :
  Clipper.frame_buffer (Clipper.self m) = None
  ∨ (∃ d, Clipper.frame_buffer (Clipper.self m) = Some d ∧ Deque.items d = []) →
  let c := Clipper.count_up (Clipper.self m) in
  let m' := snd (Clipper.save_clip e m) in
  fst (Clipper.save_clip e m) = Clipper.Ok tt
  ∧ Clipper.events_of Clipper.save_clip e m
    = [Clipper.Acquire; Clipper.Print Clipper.NoFramesToSave; Clipper.Release]
  ∧ Clipper.files m' = Clipper.files m
  ∧ Clipper.files m' !! Clipper.output_filename_of e c
    = Clipper.files m !! Clipper.output_filename_of e c
  ∧ Clipper.files m' !! Clipper.temp_video_of e c
    = Clipper.files m !! Clipper.temp_video_of e c
  ∧ Clipper.files m' !! Clipper.temp_audio_of e c
    = Clipper.files m !! Clipper.temp_audio_of e c
  ∧ Clipper.self m' = Clipper.self m.
Proof.
  intros H c m'. apply nonempty_false in H.
  pose proof (save_clip_no_frames e m H) as Hrun.
  unfold m'. rewrite (events_of_app Clipper.save_clip e m
    [Clipper.Acquire; Clipper.Print Clipper.NoFramesToSave; Clipper.Release])
    by now rewrite Hrun.
  rewrite Hrun. simpl. repeat split; reflexivity.
Qed.

Lemma save_clip_without_frames_creates_nothing_witness :
  let e := Demo.linux 0 "" in
  let m := Clipper.start Demo.fresh_clipper ∅ in
  fst (Clipper.save_clip e m) = Clipper.Ok tt
  ∧ Clipper.events_of Clipper.save_clip e m
    = [Clipper.Acquire; Clipper.Print Clipper.NoFramesToSave; Clipper.Release]
  ∧ Clipper.files (snd (Clipper.save_clip e m)) = ∅.
Proof.
  intros e m.
  pose proof (save_clip_without_frames_creates_nothing e m (or_introl eq_refl)) as H.
  cbv zeta in H. destruct H as (H1 & H2 & H3 & _).
  repeat split; assumption.
Defined.

(** C3, the claim as it stands fails: on a machine where files can be
    written but not removed, a save with two frames whose encoder exits
    with status 0 prints "Clip saved", then the removal of the raw video
    raises: both temporary files are still there and the [OSError] leaves
    [save_clip]. *)
Lemma unremovable_temporary_files_stay :
  let e := Cases.no_removal in
  let m := Clipper.start Demo.clipper_with_frames ∅ in
  let m' := snd (Clipper.save_clip e m) in
  In (Clipper.Print (Clipper.ClipSaved "clips/clip_20240101_120000_1.mp4"))
     (Clipper.trace m')
  ∧ Clipper.files m' !! "clips/temp_video_20240101_120000.raw"
    = Some (Clipper.Raw [Byte.x01; Byte.x02])
  ∧ Clipper.files m' !! "clips/temp_audio_20240101_120000.wav"
    = Some (Clipper.Wave 2 2 44100 [Byte.x03; Byte.x04])
  ∧ fst (Clipper.save_clip e m) = Clipper.Raise (Clipper.PyException "OSError")
  ∧ Clipper.temp_video_of e (Clipper.count_up (Clipper.self m))
    = "clips/temp_video_20240101_120000.raw"
  ∧ Clipper.temp_audio_of e (Clipper.count_up (Clipper.self m))
    = "clips/temp_audio_20240101_120000.wav".
Proof.
  vm_compute. split_and!; try reflexivity.
  do 7 right. left. reflexivity.
Qed.

(** C3, amended. When there are frames and each of the two temporary
    files can be removed, neither temporary file exists once [save_clip]
    is over, whatever happened in between; only an exception that is not
    an [Exception] leaves [save_clip]; and when the encoder was run and
    failed with an [Exception] (a non-zero exit among them), [save_clip]
    returns and the error has been printed. *)
Theorem save_clip_removes_temporary_files
    (e : Clipper.env) (m : Clipper.machine) :
  Clipper.nonempty (Clipper.frame_buffer (Clipper.self m)) = true →
  let c := Clipper.count_up (Clipper.self m) in
  let r := fst (Clipper.save_clip e m) in
  let m' := snd (Clipper.save_clip e m) in
  Clipper.removable e (Clipper.temp_video_of e c) = true →
  Clipper.removable e (Clipper.temp_audio_of e c) = true →
  Clipper.files m' !! Clipper.temp_video_of e c = None
  ∧ Clipper.files m' !! Clipper.temp_audio_of e c = None
  ∧ (∀ x, r = Clipper.Raise x → Clipper.is_Exception x = false)
  ∧ (∀ command res x,
       In (Clipper.EncoderRun command res) (Clipper.events_of Clipper.save_clip e m) →
       Clipper.failure_of res = Some x →
       Clipper.is_Exception x = true →
       r = Clipper.Ok tt
       ∧ In (Clipper.Print (Clipper.ErrorSavingClip x))
            (Clipper.events_of Clipper.save_clip e m)).
Proof.
  intros Hne c r m' Hrv Hra. subst r m'.
  pose proof (save_clip_runs e m Hne) as H. cbv zeta in H. fold c in H.
  set (tv := Clipper.temp_video_of e c) in *.
  set (ta := Clipper.temp_audio_of e c) in *.
  set (out := Clipper.output_filename_of e c) in *.
  set (body := Clipper.materialize_and_encode tv ta out e _) in H.
  destruct body as [rb mb]. simpl in H.
  destruct H as (r & fs & body_events & later_events & [Hlock Hdec] & Hlater
                 & Hprinted & Hrun & Hclean).
  destruct (Hclean (or_intror Hrv) (or_intror Hra)) as [-> ->].
  rewrite (events_of_app Clipper.save_clip e m
    ([Clipper.Acquire; Clipper.Print (Clipper.SavingClipTo out)]
       ++ body_events ++ later_events ++ [Clipper.Release]))
    by now rewrite Hrun.
  rewrite Hrun. simpl. split; [|split; [|split]].
  - destruct (decide (tv = ta)) as [->|Hneq].
    + apply lookup_delete_eq.
    + rewrite lookup_delete_ne by congruence. apply lookup_delete_eq.
  - apply lookup_delete_eq.
  - intros x. destruct rb as [[]|y]; [discriminate|].
    destruct (Clipper.is_Exception y) eqn:Hy; [discriminate|].
    intros [= <-]. exact Hy.
  - intros command res x Hin Hfail Hx.
    destruct Hin as [Hin|[Hin|Hin]]; try discriminate.
    apply in_app_or in Hin as [Hin|Hin].
    + specialize (Hdec command res Hin). rewrite Hfail in Hdec.
      rewrite Hdec, Hx. split; [reflexivity|].
      right. right. apply in_or_app. right. apply in_or_app. left.
      now apply Hprinted.
    + apply in_app_or in Hin as [Hin|[Hin|[]]]; [|discriminate].
      pose proof (proj1 (List.Forall_forall _ _) Hlater _ Hin) as [_ Hc].
      discriminate.
Qed.

Lemma save_clip_removes_temporary_files_witness :
  let e := Demo.linux 1 "Invalid data" in
  let m := Clipper.start Demo.clipper_with_frames ∅ in
  Clipper.files (snd (Clipper.save_clip e m)) !! "clips/temp_video_20240101_120000.raw" = None
  ∧ Clipper.files (snd (Clipper.save_clip e m)) !! "clips/temp_audio_20240101_120000.wav" = None
  ∧ fst (Clipper.save_clip e m) = Clipper.Ok tt
  ∧ In (Clipper.Print (Clipper.ErrorSavingClip
                         (Clipper.CalledProcessError 1 "Invalid data")))
       (Clipper.events_of Clipper.save_clip e m).
Proof.
  intros e m.
  pose proof (save_clip_removes_temporary_files e m eq_refl eq_refl eq_refl) as H.
  cbv zeta in H. destruct H as (H1 & H2 & _ & H4).
  split; [exact H1|]. split; [exact H2|].
  eapply (H4 _ (Clipper.Completed 1 "Invalid data")); [|reflexivity|reflexivity].
  vm_compute. do 6 right. left. reflexivity.
Defined.

(** C7, the claim as it stands fails: with two frames in the buffer and
    an encoder that exits with status 1, the save is not successful (no
    "Clip saved" line is printed) and the counter has gone from 0 to 1. *)
Lemma failed_encode_still_counts :
  let e := Demo.linux 1 "Invalid data" in
  let m := Clipper.start Demo.clipper_with_frames ∅ in
  let m' := snd (Clipper.save_clip e m) in
  existsb Clipper.is_encoder_run (Clipper.trace m') = true
  ∧ In (Clipper.Print (Clipper.ErrorSavingClip
                         (Clipper.CalledProcessError 1 "Invalid data")))
       (Clipper.trace m')
  ∧ ¬ In (Clipper.Print (Clipper.ClipSaved "clips/clip_20240101_120000_1.mp4"))
         (Clipper.trace m')
  ∧ Clipper.clip_counter (Clipper.self m) = 0%Z
  ∧ Clipper.clip_counter (Clipper.self m') = 1%Z
  ∧ Clipper.clip_counter (Clipper.self m') ≠ Clipper.clip_counter (Clipper.self m).
Proof.
  vm_compute. repeat split; try discriminate.
  - do 7 right. left. reflexivity.
  - intros H. repeat destruct H as [H|H]; try discriminate H. exact H.
Qed.

(** C7, amended. The counter never goes down: [save_clip] adds one to it
    exactly when the frame buffer is set and not empty, whether or not
    the encoder then succeeds, and leaves it alone otherwise. *)
Theorem counter_counts_saves_with_frames
    (e : Clipper.env) (m : Clipper.machine) :
  let before := Clipper.clip_counter (Clipper.self m) in
  let after := Clipper.clip_counter (Clipper.self (snd (Clipper.save_clip e m))) in
  after = (if Clipper.nonempty (Clipper.frame_buffer (Clipper.self m))
           then before + 1 else before)%Z
  ∧ (before <= after)%Z.
Proof.
  intros before after.
  assert (H : after = (if Clipper.nonempty (Clipper.frame_buffer (Clipper.self m))
                       then before + 1 else before)%Z).
  { unfold after, before.
    destruct (Clipper.nonempty (Clipper.frame_buffer (Clipper.self m))) eqn:Hne.
    - pose proof (save_clip_runs e m Hne) as H. cbv zeta in H.
      destruct H as (r & fs & b & l & _ & _ & _ & -> & _). reflexivity.
    - now rewrite (save_clip_no_frames e m Hne). }
  split; [exact H|]. rewrite H.
  destruct (Clipper.nonempty _); lia.
Qed.

(** A bound that a deque accepts gives an empty deque with that bound. *)
Lemma new_deque_ok n :
  (0 <= n)%Z → (n <= Clipper.PY_SSIZE_T_MAX)%Z →
  Clipper.new_deque n = Clipper.ret (Deque.empty (Z.to_N n)).
Proof.
  intros H0 Hmax. unfold Clipper.new_deque, Clipper.PY_SSIZE_T_MAX in *.
  destruct (Z.ltb_spec n (- 2 ^ 63)); [lia|].
  destruct (Z.ltb_spec (2 ^ 63 - 1) n); [lia|].
  destruct (Z.ltb_spec n 0); [lia|]. reflexivity.
Qed.

(** C8, the claim as it stands fails: at a duration of 1 second the audio
    buffer is bounded by 1 * 44100 * 2 = 88200 items, not by
    1 * 44100 * 2 * 2 = 176400. *)
Lemma audio_capacity_is_rate_times_two :
  let e := Demo.linux 0 "" in
  let m := Clipper.start Demo.clipper_with_frames ∅ in
  let m' := snd (Clipper.set_buffer_duration 1 e m) in
  (Deque.maxlen <$> Clipper.audio_buffer (Clipper.self m')) = Some (Some 88200%N)
  ∧ (Deque.maxlen <$> Clipper.audio_buffer (Clipper.self m'))
    ≠ Some (Some (Z.to_N (1 * 44100 * 2 * 2))).
Proof. vm_compute. split; [reflexivity|discriminate]. Qed.

(** C8, amended. For a duration [d] that is not negative and whose
    capacities a deque accepts, setting the duration replaces both
    buffers by empty ones, the frame buffer bounded by d * 30 and the
    audio buffer by d * 44100 * 2; whatever is then pushed, each buffer
    holds the last items up to its bound, the oldest having been
    dropped. *)
Theorem set_buffer_duration_resets_buffers
    (d : Z) (e : Clipper.env) (m : Clipper.machine) :
  (0 <= d)%Z →
  (d * 44100 * 2 <= Clipper.PY_SSIZE_T_MAX)%Z →
  let m' := snd (Clipper.set_buffer_duration d e m) in
  let frames0 := Deque.empty (Z.to_N (d * 30)) in
  let audio0 := Deque.empty (Z.to_N (d * 44100 * 2)) in
  fst (Clipper.set_buffer_duration d e m) = Clipper.Ok tt
  ∧ Clipper.buffer_duration (Clipper.self m') = d
  ∧ Clipper.frame_buffer (Clipper.self m') = Some frames0
  ∧ Clipper.audio_buffer (Clipper.self m') = Some audio0
  ∧ Deque.items frames0 = [] ∧ Deque.items audio0 = []
  ∧ ∀ pushed : list Clipper.item,
      Deque.items (Clipper.push_all frames0 pushed)
      = Deque.last_n (Z.to_nat (d * 30)) pushed
      ∧ (Z.of_nat (Deque.len (Clipper.push_all frames0 pushed)) <= d * 30)%Z
      ∧ Deque.items (Clipper.push_all audio0 pushed)
        = Deque.last_n (Z.to_nat (d * 44100 * 2)) pushed
      ∧ (Z.of_nat (Deque.len (Clipper.push_all audio0 pushed)) <= d * 44100 * 2)%Z.
Proof.
  intros Hd Hmax m' frames0 audio0.
  assert (Hrun : Clipper.set_buffer_duration d e m
    = (Clipper.Ok tt,
       Clipper.mk_machine
         (Clipper.mk_clipper d (Clipper.output_folder (Clipper.self m))
            (Clipper.format (Clipper.self m)) (Clipper.is_listening (Clipper.self m))
            (Some frames0) (Some audio0) (Clipper.clip_counter (Clipper.self m)))
         (Clipper.files m) (Clipper.trace m))).
  { unfold Clipper.set_buffer_duration.
    rewrite (new_deque_ok (d * 30)), (new_deque_ok (d * 44100 * 2)) by lia.
    reflexivity. }
  unfold m'. rewrite Hrun. simpl.
  repeat (split; [reflexivity|]).
  intros pushed.
  destruct (push_all_last_n pushed frames0 (Z.to_N (d * 30)) [] eq_refl eq_refl)
    as [_ Hf].
  destruct (push_all_last_n pushed audio0 (Z.to_N (d * 44100 * 2)) [] eq_refl eq_refl)
    as [_ Ha].
  simpl in Hf, Ha. rewrite Z_N_nat in Hf, Ha.
  unfold Deque.len. rewrite Hf, Ha.
  pose proof (length_last_n (Z.to_nat (d * 30)) pushed).
  pose proof (length_last_n (Z.to_nat (d * 44100 * 2)) pushed).
  repeat split; try reflexivity; lia.
Qed.

Lemma set_buffer_duration_resets_buffers_witness :
  let e := Demo.linux 0 "" in
  let m := Clipper.start Demo.clipper_with_frames ∅ in
  let m' := snd (Clipper.set_buffer_duration 10 e m) in
  Clipper.frame_buffer (Clipper.self m') = Some (Deque.empty 300)
  ∧ Clipper.audio_buffer (Clipper.self m') = Some (Deque.empty 882000).
Proof.
  intros e m.
  pose proof (set_buffer_duration_resets_buffers 10 e m) as H.
  cbv zeta in H. destruct H as (_ & _ & H3 & H4 & _).
  - lia.
  - unfold Clipper.PY_SSIZE_T_MAX. lia.
  - split; [exact H3|exact H4].
Defined.

(** ** The lock *)

Section LockFacts.
Import Clipper Schedule.

Lemma first_alone h t2 merged :
  interleaving h [] t2 merged → merged = by_thread Second t2.
Proof.
  intros H. remember [] as t1 eqn:E. induction H; subst; try discriminate.
  - reflexivity.
  - simpl. f_equal. auto.
Qed.

Lemma second_alone h t1 merged :
  interleaving h t1 [] merged → merged = by_thread First t1.
Proof.
  intros H. remember [] as t2 eqn:E. induction H; subst; try discriminate.
  - reflexivity.
  - simpl. f_equal. auto.
Qed.

Lemma after_quiet h who ev : is_lock_event ev = false → after h who ev = h.
Proof. now destruct ev. Qed.

(** While the first thread holds the lock, a second thread that is
    about to take it does not move. *)
Lemma first_runs_to_release mid : ∀ t2 merged,
  Forall (fun ev => is_lock_event ev = false) mid →
  interleaving (Some First) (mid ++ [Release]) (Acquire :: t2) merged →
  merged = by_thread First (mid ++ [Release]) ++ by_thread Second (Acquire :: t2).
Proof.
  induction mid as [|ev mid IH]; intros t2 merged Hq H.
  - inversion H as [|ev' t1' t2' rest Hall Hrest|ev' t1' t2' rest Hall Hrest]; subst.
    + simpl in Hrest. apply first_alone in Hrest. now subst.
    + simpl in Hall. discriminate.
  - inversion Hq as [|? ? Hev Hq']; subst.
    inversion H as [|ev' t1' t2' rest Hall Hrest|ev' t1' t2' rest Hall Hrest]; subst.
    + rewrite after_quiet in Hrest by assumption.
      simpl. f_equal. now apply IH.
    + simpl in Hall. discriminate.
Qed.

Lemma second_runs_to_release mid : ∀ t1 merged,
  Forall (fun ev => is_lock_event ev = false) mid →
  interleaving (Some Second) (Acquire :: t1) (mid ++ [Release]) merged →
  merged = by_thread Second (mid ++ [Release]) ++ by_thread First (Acquire :: t1).
Proof.
  induction mid as [|ev mid IH]; intros t1 merged Hq H.
  - inversion H as [|ev' t1' t2' rest Hall Hrest|ev' t1' t2' rest Hall Hrest]; subst.
    + simpl in Hall. discriminate.
    + simpl in Hrest. apply second_alone in Hrest. now subst.
  - inversion Hq as [|? ? Hev Hq']; subst.
    inversion H as [|ev' t1' t2' rest Hall Hrest|ev' t1' t2' rest Hall Hrest]; subst.
    + simpl in Hall. discriminate.
    + rewrite after_quiet in Hrest by assumption.
      simpl. f_equal. now apply IH.
Qed.

(** Two locked regions do not overlap. *)
Lemma locked_regions_are_serial mid1 mid2 merged :
  Forall (fun ev => is_lock_event ev = false) mid1 →
  Forall (fun ev => is_lock_event ev = false) mid2 →
  interleaving None (Acquire :: mid1 ++ [Release]) (Acquire :: mid2 ++ [Release]) merged →
  merged = by_thread First (Acquire :: mid1 ++ [Release])
             ++ by_thread Second (Acquire :: mid2 ++ [Release])
  ∨ merged = by_thread Second (Acquire :: mid2 ++ [Release])
               ++ by_thread First (Acquire :: mid1 ++ [Release]).
Proof.
  intros H1 H2 H.
  inversion H as [|ev' t1' t2' rest Hall Hrest|ev' t1' t2' rest Hall Hrest]; subst.
  - left. simpl in Hrest. apply first_runs_to_release in Hrest; [|assumption].
    subst. reflexivity.
  - right. simpl in Hrest. apply second_runs_to_release in Hrest; [|assumption].
    subst. reflexivity.
Qed.

(** Everything [save_clip] does lies between taking and giving back
    the lock. *)
Lemma save_clip_locked_region e m :
  ∃ mid, events_of save_clip e m = Acquire :: mid ++ [Release]
         ∧ Forall (fun ev => is_lock_event ev = false) mid.
Proof.
  destruct (nonempty (frame_buffer (self m))) eqn:Hne.
  - pose proof (save_clip_runs e m Hne) as H. cbv zeta in H.
    destruct H as (r & fs & body_events & later_events & [Hlock _] & Hlater & _
                   & Hrun & _).
    eexists. split.
    + apply events_of_app. rewrite Hrun. simpl.
      rewrite (app_assoc body_events later_events [Release]).
      change (Acquire :: Print ?x :: (?a ++ ?b)) with (Acquire :: (Print x :: a) ++ b).
      reflexivity.
    + constructor; [reflexivity|]. apply Forall_app. split; [assumption|].
      eapply Forall_impl; [exact Hlater|]. now intros ev [? _].
  - exists [Print NoFramesToSave]. split.
    + apply events_of_app. now rewrite (save_clip_no_frames e m Hne).
    + repeat constructor.
Qed.

Lemma with_lock_state_quiet mid : ∀ rest,
  Forall (fun ev => is_lock_event ev = false) mid →
  with_lock_state true (mid ++ rest)
  = map (pair true) mid ++ with_lock_state true rest.
Proof.
  induction mid as [|ev mid IH]; intros rest H; [reflexivity|].
  inversion H as [|? ? Hev H']; subst.
  destruct ev; try discriminate; simpl; now rewrite IH.
Qed.

End LockFacts.

(** C2, the claim as it stands fails: in a save with two frames and a
    working encoder, the encoder is run while the lock is held, so the
    lock is not held for the copy of the buffers only. *)
Lemma encoder_runs_under_the_lock :
  let e := Demo.linux 0 "" in
  let m := Clipper.start Demo.clipper_with_frames ∅ in
  ¬ Clipper.lock_held_only_for_copy (Clipper.events_of Clipper.save_clip e m).
Proof.
  intros e m Hclaim.
  assert (Hrun : existsb (fun p => fst p && Clipper.is_encoder_run (snd p))
            (Clipper.with_lock_state false (Clipper.events_of Clipper.save_clip e m))
          = true) by (vm_compute; reflexivity).
  apply existsb_exists in Hrun as [[held ev] [Hin Hp]].
  destruct held; [|discriminate Hp]. simpl in Hp.
  specialize (Hclaim ev Hin). clear Hin.
  destruct ev; first [discriminate Hp | discriminate Hclaim].
Qed.

(** C2, amended. A save holds the lock from its first step to its last:
    its events are the acquisition, then events that all happen with the
    lock held (the check of the buffer, the temporary files, the run of
    the encoder, the clean-up), then the release. Hence, in every
    interleaving of two saves that the lock admits, one save is over
    before the other begins. *)
Theorem save_holds_lock_throughout
    (e1 e2 : Clipper.env) (m1 m2 : Clipper.machine) :
  let t1 := Clipper.events_of Clipper.save_clip e1 m1 in
  let t2 := Clipper.events_of Clipper.save_clip e2 m2 in
  (∃ mid, t1 = Clipper.Acquire :: mid ++ [Clipper.Release]
          ∧ Forall (fun ev => Clipper.is_lock_event ev = false) mid
          ∧ Clipper.with_lock_state false t1
            = (false, Clipper.Acquire) :: map (pair true) mid
                ++ [(true, Clipper.Release)])
  ∧ (∀ merged, Schedule.interleaving None t1 t2 merged →
       merged = Schedule.by_thread Schedule.First t1
                  ++ Schedule.by_thread Schedule.Second t2
       ∨ merged = Schedule.by_thread Schedule.Second t2
                    ++ Schedule.by_thread Schedule.First t1).
Proof.
  intros t1 t2.
  destruct (save_clip_locked_region e1 m1) as (mid1 & Ht1 & Hq1).
  destruct (save_clip_locked_region e2 m2) as (mid2 & Ht2 & Hq2).
  fold t1 in Ht1. fold t2 in Ht2. split.
  - exists mid1. split; [assumption|]. split; [assumption|].
    rewrite Ht1. simpl. f_equal.
    now rewrite with_lock_state_quiet.
  - intros merged H. rewrite Ht1, Ht2 in *.
    now apply locked_regions_are_serial.
Qed.


(** * Further properties *)

(** ** Normalisation *)

Section NormalisationFacts.
Import PyStr Detector Run.

Lemma lower_char_idempotent c : lower_char (lower_char c) = lower_char c.
Proof. destruct c as [[] [] [] [] [] [] [] []]; reflexivity. Qed.

Lemma is_space_lower_char c : is_space (lower_char c) = is_space c.
Proof. destruct c as [[] [] [] [] [] [] [] []]; reflexivity. Qed.

Lemma lower_idempotent s : lower (lower s) = lower s.
Proof.
  induction s as [|c s IH]; simpl; [reflexivity|].
  now rewrite lower_char_idempotent, IH.
Qed.

Lemma lower_lstrip s : lower (lstrip s) = lstrip (lower s).
Proof.
  induction s as [|c s IH]; simpl; [reflexivity|].
  rewrite is_space_lower_char. now destruct (is_space c).
Qed.

Lemma lower_rstrip s : lower (rstrip s) = rstrip (lower s).
Proof.
  induction s as [|c s IH]; simpl; [reflexivity|].
  rewrite <- IH, is_space_lower_char.
  destruct (rstrip s) as [|c' r]; simpl; [now destruct (is_space c)|reflexivity].
Qed.

Lemma rstrip_idempotent s : rstrip (rstrip s) = rstrip s.
Proof.
  induction s as [|c s IH]; simpl; [reflexivity|].
  destruct (rstrip s) as [|c' r] eqn:E.
  - destruct (is_space c) eqn:Hc; simpl; [reflexivity|now rewrite Hc].
  - cbn [rstrip]. cbn [rstrip] in IH. rewrite IH. reflexivity.
Qed.

Lemma lstrip_starts_clean s : starts_clean (lstrip s).
Proof.
  induction s as [|c s IH]; simpl; [exact I|].
  destruct (is_space c) eqn:Hc; [exact IH|exact Hc].
Qed.

Lemma lstrip_of_clean s : starts_clean s → lstrip s = s.
Proof. destruct s as [|c s]; simpl; [reflexivity|now intros ->]. Qed.

Lemma rstrip_starts_clean s : starts_clean s → starts_clean (rstrip s).
Proof.
  destruct s as [|c s]; simpl; [exact id|]. intros Hc.
  destruct (rstrip s); [rewrite Hc|]; exact Hc.
Qed.

Lemma strip_idempotent s : strip (strip s) = strip s.
Proof.
  unfold strip.
  rewrite (lstrip_of_clean (rstrip (lstrip s)))
    by apply rstrip_starts_clean, lstrip_starts_clean.
  apply rstrip_idempotent.
Qed.

Lemma lower_strip s : lower (strip s) = strip (lower s).
Proof. unfold strip. now rewrite lower_rstrip, lower_lstrip. Qed.

Lemma recognized_text_idempotent text :
  recognized_text (recognized_text text) = recognized_text text.
Proof.
  unfold recognized_text.
  now rewrite lower_strip, lower_idempotent, strip_idempotent.
Qed.

(** Nothing is stripped from the right of a text that ends in a word. *)
Lemma rstrip_word w : word_like w → rstrip w = w.
Proof.
  intros Hw. induction w as [|c w IH]; [reflexivity|].
  apply word_like_cons in Hw as [Hc [->|Hw]]; simpl.
  - now rewrite Hc.
  - rewrite (IH Hw). destruct w; [now destruct Hw|reflexivity].
Qed.

Lemma rstrip_app a b :
  b ≠ EmptyString → rstrip b = b → rstrip (a +:+ b) = a +:+ b.
Proof.
  intros Hb Hr. induction a as [|c a IH]; [exact Hr|].
  change (String c a +:+ b) with (String c (a +:+ b)).
  cbn [rstrip]. rewrite IH.
  destruct (a +:+ b) eqn:E; [|reflexivity].
  destruct a; simpl in E; [contradiction|discriminate].
Qed.

Lemma join_words_nonempty w ws : word_like w → join " " (w :: ws) ≠ EmptyString.
Proof.
  intros [Hne _]. destruct ws as [|w2 ws]; [exact Hne|].
  change (join " " (w :: w2 :: ws)) with (w +:+ String " " (join " " (w2 :: ws))).
  destruct w; [contradiction|discriminate].
Qed.

Lemma rstrip_join ws : Forall word_like ws → rstrip (join " " ws) = join " " ws.
Proof.
  induction 1 as [|w ws Hw Hws IH]; [reflexivity|].
  destruct ws as [|w2 ws'].
  - now apply rstrip_word.
  - change (join " " (w :: w2 :: ws'))
      with (w +:+ (String " " EmptyString +:+ join " " (w2 :: ws'))).
    inversion Hws as [|? ? Hw2 _]; subst.
    apply rstrip_app.
    + discriminate.
    + apply (rstrip_app (String " " EmptyString)); [|exact IH].
      now apply join_words_nonempty.
Qed.

Lemma join_starts_clean ws : Forall word_like ws → starts_clean (join " " ws).
Proof.
  destruct 1 as [|w ws Hw Hws]; [exact I|].
  destruct w as [|c w]; [now destruct Hw|].
  apply word_like_cons in Hw as [Hc _].
  destruct ws; exact Hc.
Qed.

End NormalisationFacts.

(** X1. Normalisation is idempotent, so the loop treats an utterance and
    its lower-cased or trimmed form alike, at every time and in every
    state. *)
Theorem normalised_utterance_is_handled_alike
    (now : Q) (text : string) (st : Detector.state) :
  Detector.recognized_text (Detector.recognized_text text)
  = Detector.recognized_text text
  ∧ Detector.on_text now (Detector.recognized_text text) st
    = Detector.on_text now text st
  ∧ Detector.on_text now (PyStr.lower text) st = Detector.on_text now text st
  ∧ Detector.on_text now (PyStr.strip text) st = Detector.on_text now text st.
Proof.
  split; [apply recognized_text_idempotent|].
  unfold Detector.on_text.
  rewrite recognized_text_idempotent.
  split; [reflexivity|].
  assert (Hl : Detector.recognized_text (PyStr.lower text)
               = Detector.recognized_text text).
  { unfold Detector.recognized_text. now rewrite lower_idempotent. }
  assert (Hs : Detector.recognized_text (PyStr.strip text)
               = Detector.recognized_text text).
  { unfold Detector.recognized_text.
    now rewrite lower_strip, strip_idempotent. }
  rewrite Hl, Hs. split; reflexivity.
Qed.

(** X2. Cleaning a cleaned text changes nothing, and a cleaned text is
    the single-space join of its own words: it has no stop word, no
    one-letter word and no white space at either end. *)
Theorem cleaned_text_is_a_fixed_point (recognized : string) :
  let cleaned := Detector.cleaned_text recognized in
  Detector.cleaned_text cleaned = cleaned
  ∧ PyStr.join " " (PyStr.split cleaned) = cleaned
  ∧ PyStr.strip cleaned = cleaned
  ∧ Forall (fun w => Detector.keep_word w = true) (PyStr.split cleaned).
Proof.
  intros cleaned.
  assert (Hsplit : PyStr.split cleaned
                   = List.filter Detector.keep_word (PyStr.split recognized))
    by apply split_cleaned.
  assert (Hkept : Forall (fun w => Detector.keep_word w = true) (PyStr.split cleaned)).
  { rewrite Hsplit. apply List.Forall_forall. intros w Hw.
    now apply filter_In in Hw as [_ Hw]. }
  assert (Hjoin : PyStr.join " " (PyStr.split cleaned) = cleaned)
    by now rewrite Hsplit.
  split; [|split; [exact Hjoin|split; [|exact Hkept]]].
  - unfold Detector.cleaned_text at 1. fold cleaned.
    rewrite (forallb_filter_id Detector.keep_word (PyStr.split cleaned)).
    + exact Hjoin.
    + apply forallb_forall. intros w Hw.
      exact (proj1 (List.Forall_forall _ _) Hkept w Hw).
  - unfold PyStr.strip, cleaned, Detector.cleaned_text.
    rewrite lstrip_of_clean by apply join_starts_clean, kept_words_word_like.
    apply rstrip_join, kept_words_word_like.
Qed.

(** ** Runs of the loop *)

Section RunFacts.
Import PyStr Detector Run.

Lemma on_text_started now text st :
  snd (on_text now text st) = ClipStarted →
  trigger_worthy text = true
  ∧ (2 < now - last_clip_time st)%Q
  ∧ ¬ In (cleaned_text (recognized_text text)) (Deque.items (recent_commands st))
  ∧ fst (on_text now text st)
    = {| recent_commands :=
           Deque.append (recent_commands st) (cleaned_text (recognized_text text));
         last_clip_time := now |}.
Proof.
  intros H. destruct (trigger_worthy text) eqn:Ht.
  - rewrite (on_text_triggered now text st Ht) in *. cbv zeta in *.
    destruct (Qle_bool (now - last_clip_time st) 2) eqn:Hq; [discriminate|].
    simpl in *.
    destruct (mem (cleaned_text (recognized_text text))
                (Deque.items (recent_commands st))) eqn:Hm; [discriminate|].
    simpl. repeat split.
    + apply Qnot_le_lt. intros Hle. apply Qle_bool_iff in Hle. congruence.
    + now apply mem_not_In.
  - destruct (on_text_not_triggered now text st Ht) as [_ [Ho|Ho]];
      rewrite Ho in H; discriminate.
Qed.

Lemma NoDup_snoc (l : list string) x : List.NoDup l → ¬ In x l → List.NoDup (l ++ [x]).
Proof.
  induction 1 as [|a l Ha Hl IH]; intros Hx; simpl.
  - constructor; [intros []|constructor].
  - constructor.
    + intros Hin. apply in_app_or in Hin as [Hin|[<-|[]]]; [now apply Ha|].
      apply Hx. now left.
    + apply IH. intros Hin. apply Hx. now right.
Qed.

Lemma NoDup_tail (l : list string) : List.NoDup l → List.NoDup (tail l).
Proof. destruct 1; [constructor|assumption]. Qed.

(** One utterance keeps the recent commands free of repetitions and
    within their bound. *)
Lemma on_text_keeps_distinct now text st :
  Deque.maxlen (recent_commands st) = Some 3%N →
  List.NoDup (Deque.items (recent_commands st)) →
  length (Deque.items (recent_commands st)) ≤ 3 →
  let st' := fst (on_text now text st) in
  Deque.maxlen (recent_commands st') = Some 3%N
  ∧ List.NoDup (Deque.items (recent_commands st'))
  ∧ length (Deque.items (recent_commands st')) ≤ 3.
Proof.
  intros Hm Hnd Hlen st'. unfold st'.
  destruct (on_text_cases now text st) as [[-> _]|[_ Heq]]; [auto|].
  pose proof (on_text_started now text st) as Hs.
  rewrite Heq in Hs. destruct (Hs eq_refl) as (_ & _ & Hnot & _).
  rewrite Heq. simpl. rewrite append_maxlen.
  rewrite (append_items _ 3%N _ Hm).
  split; [assumption|].
  destruct (N.ltb_spec (N.of_nat (length (Deque.items (recent_commands st)))) 3).
  - split; [now apply NoDup_snoc|]. rewrite length_app. simpl. lia.
  - split; [now apply NoDup_tail, NoDup_snoc|].
    destruct (Deque.items (recent_commands st)) as [|x l]; simpl in *; [lia|].
    rewrite length_app. simpl. lia.
Qed.

Lemma listen_cons now text rest st :
  listen ((now, text) :: rest) st
  = (fst (listen rest (fst (on_text now text st))),
     snd (on_text now text st) :: snd (listen rest (fst (on_text now text st)))).
Proof.
  simpl. destruct (on_text now text st) as [st1 o]. simpl.
  now destruct (listen rest st1).
Qed.

End RunFacts.

(** X3. Whatever is heard, the recent commands of the loop never hold
    the same text twice and never more than three texts. *)
Theorem recent_commands_are_distinct (utterances : list (Q * string)) :
  let st := fst (Detector.listen utterances Detector.initial) in
  List.NoDup (Deque.items (Detector.recent_commands st))
  ∧ length (Deque.items (Detector.recent_commands st)) ≤ 3
  ∧ Deque.maxlen (Detector.recent_commands st) = Some 3%N.
Proof.
  assert (H : ∀ us st,
    Deque.maxlen (Detector.recent_commands st) = Some 3%N →
    List.NoDup (Deque.items (Detector.recent_commands st)) →
    length (Deque.items (Detector.recent_commands st)) ≤ 3 →
    Deque.maxlen (Detector.recent_commands (fst (Detector.listen us st))) = Some 3%N
    ∧ List.NoDup (Deque.items (Detector.recent_commands (fst (Detector.listen us st))))
    ∧ length (Deque.items (Detector.recent_commands (fst (Detector.listen us st)))) ≤ 3).
  { induction us as [|[now text] us IH]; intros st Hm Hnd Hlen; [simpl; auto|].
    rewrite listen_cons. simpl.
    destruct (on_text_keeps_distinct now text st Hm Hnd Hlen) as (H1 & H2 & H3).
    now apply IH. }
  intros st. destruct (H utterances Detector.initial) as (H1 & H2 & H3);
    simpl; auto. constructor.
Qed.

(** X4. In every run of the loop, each accepted trigger comes more than
    two seconds after the accepted trigger before it, whatever was heard
    in between. *)
Theorem accepted_triggers_are_spaced
    (utterances : list (Q * string)) (st : Detector.state) :
  Run.spaced (Detector.last_clip_time st) (Run.accepted_times utterances st)
  ∧ length (Run.accepted_times utterances st)
    = Detector.count_started (snd (Detector.listen utterances st)).
Proof.
  revert st. induction utterances as [|[now text] us IH]; intros st.
  - simpl. auto.
  - rewrite listen_cons. cbn [Run.accepted_times].
    pose proof (on_text_started now text st) as Hs.
    destruct (on_text_cases now text st) as [[Hst Ho]|[_ Heq]].
    + destruct (Detector.on_text now text st) as [st1 o]. simpl in *. subst st1.
      destruct (IH st) as [IH1 IH2].
      destruct o; try congruence; (split; [exact IH1|]);
        unfold Detector.count_started in *; simpl; exact IH2.
    + rewrite Heq in Hs. destruct (Hs eq_refl) as (_ & Hgap & _).
      rewrite Heq. simpl.
      match goal with |- context [Run.accepted_times us ?s] =>
        destruct (IH s) as [IH1 IH2] end.
      simpl in IH1. repeat split; try assumption.
      unfold Detector.count_started in *. simpl. now rewrite IH2.
Qed.

(** X5. What one utterance leads to, case by case. The cooldown is
    tested before the duplicates: a repeated command inside the cooldown
    is answered "please wait", and a clip starts exactly for a
    trigger-worthy utterance outside the cooldown whose cleaned text is
    not among the recent commands. *)
Theorem outcome_table (now : Q) (text : string) (st : Detector.state) :
  let o := snd (Detector.on_text now text st) in
  let cleaned := Detector.cleaned_text (Detector.recognized_text text) in
  let recent := Deque.items (Detector.recent_commands st) in
  let gap := (now - Detector.last_clip_time st)%Q in
  (o = Detector.Skipped ∨ o = Detector.NoCommand
   ↔ Detector.trigger_worthy text = false)
  ∧ (o = Detector.PleaseWait
     ↔ Detector.trigger_worthy text = true ∧ (gap <= 2)%Q)
  ∧ (o = Detector.DuplicateIgnored
     ↔ Detector.trigger_worthy text = true ∧ (2 < gap)%Q ∧ In cleaned recent)
  ∧ (o = Detector.ClipStarted
     ↔ Detector.trigger_worthy text = true ∧ (2 < gap)%Q ∧ ¬ In cleaned recent).
Proof.
  intros o cleaned recent gap. unfold o.
  destruct (Detector.trigger_worthy text) eqn:Ht.
  - rewrite (on_text_triggered now text st Ht). cbv zeta.
    fold cleaned. fold recent. fold gap.
    destruct (Qle_bool gap 2) eqn:Hq.
    + assert (Hle : (gap <= 2)%Q) by now apply Qle_bool_iff.
      assert (Hnlt : ¬ (2 < gap)%Q) by (intros H; now apply (Qlt_not_le _ _ H)).
      simpl. repeat split; try discriminate; try tauto;
        intros [H|H]; discriminate.
    + assert (Hlt : (2 < gap)%Q).
      { apply Qnot_le_lt. intros H. apply Qle_bool_iff in H. congruence. }
      assert (Hnle : ¬ (gap <= 2)%Q) by (intros H; now apply (Qlt_not_le _ _ Hlt)).
      simpl. destruct (PyStr.mem cleaned recent) eqn:Hm; simpl.
      * apply mem_In in Hm.
        repeat split; try discriminate; try tauto; intros [H|H]; discriminate.
      * apply mem_not_In in Hm.
        repeat split; try discriminate; try tauto; intros [H|H]; discriminate.
  - destruct (on_text_not_triggered now text st Ht) as [_ Ho].
    assert (Hnot : ∀ o', o' ≠ Detector.Skipped → o' ≠ Detector.NoCommand →
              snd (Detector.on_text now text st) = o' → False).
    { intros o' H1 H2 E. rewrite E in Ho. destruct Ho; contradiction. }
    split; [split; [reflexivity|intros _; exact Ho]|].
    split; [|split]; (split; [|intros [E _]; discriminate E]); intros E;
      exfalso; refine (Hnot _ _ _ E); discriminate.
Qed.

(** X6. Utterances that are not trigger-worthy leave no mark: dropping
    them from a run changes neither the final state, nor the accepted
    texts, nor the number of clips started. *)
Theorem noise_leaves_no_mark
    (utterances : list (Q * string)) (st : Detector.state) :
  let heard := List.filter Run.worthy utterances in
  fst (Detector.listen utterances st) = fst (Detector.listen heard st)
  ∧ Detector.accepted utterances st = Detector.accepted heard st
  ∧ Detector.count_started (snd (Detector.listen utterances st))
    = Detector.count_started (snd (Detector.listen heard st)).
Proof.
  revert st. induction utterances as [|[now text] us IH]; intros st; [simpl; auto|].
  cbv zeta. cbn [List.filter].
  change (Run.worthy (now, text)) with (Detector.trigger_worthy text).
  destruct (Detector.trigger_worthy text) eqn:Ht.
  - cbv zeta. rewrite !listen_cons. cbn [Detector.accepted fst snd].
    destruct (Detector.on_text now text st) as [st1 o]. cbn [fst snd].
    destruct (IH st1) as (H1 & H2 & H3). cbv zeta in H1, H2, H3.
    split; [exact H1|]. split.
    + destruct o; simpl; congruence.
    + unfold Detector.count_started in *. destruct o; simpl; congruence.
  - cbv zeta. rewrite listen_cons. cbn [Detector.accepted fst snd].
    destruct (on_text_not_triggered now text st Ht) as [Hst Ho].
    destruct (Detector.on_text now text st) as [st1 o]. simpl in Hst, Ho. subst st1.
    cbn [fst snd]. destruct (IH st) as (H1 & H2 & H3). cbv zeta in H1, H2, H3.
    split; [exact H1|]. split.
    + destruct Ho; subst o; exact H2.
    + unfold Detector.count_started in *.
      destruct Ho; subst o; simpl; exact H3.
Qed.

(** ** The fuzzy threshold *)

Section FuzzyFacts.
Import Fuzz.

Lemma lcs_cons x a y b :
  lcs (String x a) (String y b)
  = if Ascii.eqb x y then S (lcs a b)
    else Nat.max (lcs a (String y b)) (lcs (String x a) b).
Proof. reflexivity. Qed.

Lemma lcs_empty_r a : lcs a EmptyString = 0.
Proof. now destruct a. Qed.

Lemma lcs_le_left a : ∀ b, lcs a b ≤ String.length a.
Proof.
  induction a as [|x a IHa]; intros b; [simpl; lia|].
  induction b as [|y b IHb]; [rewrite lcs_empty_r; lia|].
  rewrite lcs_cons. destruct (Ascii.eqb x y).
  - specialize (IHa b). simpl. lia.
  - specialize (IHa (String y b)). simpl in *. lia.
Qed.

Lemma lcs_le_right a : ∀ b, lcs a b ≤ String.length b.
Proof.
  induction a as [|x a IHa]; intros b; [simpl; lia|].
  induction b as [|y b IHb]; [rewrite lcs_empty_r; lia|].
  rewrite lcs_cons. destruct (Ascii.eqb x y).
  - specialize (IHa b). simpl. lia.
  - specialize (IHa (String y b)). simpl in *. lia.
Qed.

(** The ratio against "clip" passes 40 exactly when five times the
    common subsequence exceeds the two lengths together. *)
Lemma above_threshold_clip w :
  Detector.above_threshold (ratio "clip" w) = true
  ↔ 4 + String.length w < 5 * lcs "clip" w.
Proof.
  rewrite above_threshold_iff. unfold ratio.
  change (String.length "clip") with 4.
  change (4 + String.length w) with (S (3 + String.length w)).
  cbv iota. unfold Qlt. cbn [Qnum Qden].
  rewrite <- Pos.of_nat_succ, Zpos_P_of_succ_nat.
  lia.
Qed.

End FuzzyFacts.

(** X7. The fuzzy test passes a word exactly when five times its longest
    common subsequence with "clip" exceeds its length plus four. Hence a
    word that passes has at most 15 characters and shares at least two
    letters of "clip", in order; longer words are only ever detected by
    the direct match. *)
Theorem fuzzy_match_needs_a_short_close_word (w : string) :
  (Detector.above_threshold (Fuzz.ratio "clip" w) = true
   ↔ 4 + String.length w < 5 * Fuzz.lcs "clip" w)
  ∧ (Detector.above_threshold (Fuzz.ratio "clip" w) = true →
     String.length w ≤ 15 ∧ 2 ≤ Fuzz.lcs "clip" w)
  ∧ (15 < String.length w → Detector.fuzzy_scan [w] = None).
Proof.
  pose proof (above_threshold_clip w) as Hiff.
  pose proof (lcs_le_left "clip" w) as Hl. change (String.length "clip") with 4 in Hl.
  pose proof (lcs_le_right "clip" w) as Hr.
  split; [exact Hiff|]. split.
  - intros H. apply Hiff in H. lia.
  - intros Hlong. simpl.
    destruct (Detector.above_threshold (Fuzz.ratio "clip" w)) eqn:E; [|reflexivity].
    apply above_threshold_clip in E. lia.
Qed.

(** ** Saving, step by step *)

Section SaveSteps.
Import Clipper Feed.

Lemma bind_ok {A B} (c : M A) (k : A → M B) e m a m1 :
  c e m = (Ok a, m1) → bind c k e m = k a e m1.
Proof. intros H. unfold bind. now rewrite H. Qed.

Lemma bind_raise {A B} (c : M A) (k : A → M B) e m x m1 :
  c e m = (Raise x, m1) → bind c k e m = (Raise x, m1).
Proof. intros H. unfold bind. now rewrite H. Qed.

Lemma open_write_ok path initial e m :
  writable e path = true →
  open_write path initial e m
  = (Ok tt, mk_machine (self m) (<[path := initial]> (files m))
              (trace m ++ [Created path])).
Proof. intros H. unfold open_write. cbv [bind ask]. now rewrite H. Qed.

Lemma open_write_fails path initial e m :
  writable e path = false →
  open_write path initial e m = (Raise (PyException "OSError"), m).
Proof. intros H. unfold open_write. cbv [bind ask]. now rewrite H. Qed.

(** Blocks of bytes are written one after the other. *)
Lemma write_frames_blocks path frames : ∀ e m old data,
  files m !! path = Some (Raw old) →
  join_blocks frames = Some data →
  write_frames path frames e m
  = (Ok tt, mk_machine (self m) (<[path := Raw (old ++ data)]> (files m)) (trace m)).
Proof.
  induction frames as [|frame rest IH]; intros e m old data Hfile Hjoin.
  - injection Hjoin as <-. simpl. unfold ret. rewrite app_nil_r.
    rewrite insert_id by assumption. now destruct m.
  - destruct frame as [d|]; [|discriminate]. simpl in Hjoin.
    destruct (join_blocks rest) as [data'|] eqn:Hrest; [|discriminate].
    injection Hjoin as <-. cbn [write_frames].
    erewrite bind_ok.
    2: { unfold write_frame. cbv [bind get_files put_files]. rewrite Hfile.
         reflexivity. }
    erewrite IH; [|simpl; apply lookup_insert_eq|reflexivity].
    simpl. now rewrite insert_insert_eq, <- app_assoc.
Qed.

(** The first thing that is not a block of bytes stops the writing. *)
Lemma write_frames_not_bytes path frames : ∀ e m old,
  files m !! path = Some (Raw old) →
  join_blocks frames = None →
  ∃ fs, write_frames path frames e m
        = (Raise (PyException "TypeError"), mk_machine (self m) fs (trace m))
        ∧ is_Some (fs !! path).
Proof.
  induction frames as [|frame rest IH]; intros e m old Hfile Hjoin; [discriminate|].
  destruct frame as [d|].
  - simpl in Hjoin.
    destruct (join_blocks rest) as [data'|] eqn:Hrest; [discriminate|].
    cbn [write_frames]. erewrite bind_ok.
    2: { unfold write_frame. cbv [bind get_files put_files]. rewrite Hfile.
         reflexivity. }
    destruct (IH e (mk_machine (self m) (<[path := Raw (old ++ d)]> (files m)) (trace m))
                (old ++ d)) as (fs & Hrun & Hfs);
      [apply lookup_insert_eq|reflexivity|].
    exists fs. now rewrite Hrun.
  - exists (files m). split; [cbn; now destruct m|]. rewrite Hfile. eauto.
Qed.

(** [save_clip] with frames, down to its [try] statement. *)
Lemma save_clip_with_frames e m :
  nonempty (frame_buffer (self m)) = true →
  let c := count_up (self m) in
  let tv := temp_video_of e c in
  let ta := temp_audio_of e c in
  let out := output_filename_of e c in
  let m0 := mk_machine c (files m) (trace m ++ [Acquire; Print (SavingClipTo out)]) in
  save_clip e m
  = let '(r, m1) := try_except (materialize_and_encode tv ta out) on_error e m0 in
    let '(rc, m2) := cleanup tv ta e m1 in
    (match rc with Ok _ => r | Raise x => Raise x end,
     mk_machine (self m2) (files m2) (trace m2 ++ [Release])).
Proof.
  intros Hne c tv ta out m0. unfold save_clip, with_lock.
  cbv [bind emit get_self put_self ask print try_finally]. simpl.
  rewrite Hne. simpl. rewrite <- app_assoc. simpl.
  fold c. fold out. fold tv. fold ta. fold m0.
  destruct (try_except (materialize_and_encode tv ta out) on_error e m0) as [r m1].
  destruct (cleanup tv ta e m1) as [[[]|x] m2]; reflexivity.
Qed.

End SaveSteps.

Section SavePaths.
Import Clipper Feed.

(** The [try] body when every write goes well and the encoder exits
    with status 0. *)
Lemma materialize_and_encode_succeeds e m0 tv ta out video sound fs2 stderr :
  writable e tv = true →
  writable e ta = true →
  join_blocks (contents (frame_buffer (self m0))) = Some video →
  join_blocks (contents (audio_buffer (self m0))) = Some sound →
  let with_video := <[tv := Raw video]> (files m0) in
  let input := if nonempty (audio_buffer (self m0))
               then <[ta := Wave 2 2 44100 sound]> with_video else with_video in
  let command := ffmpeg_command (system e) (bool_decide (is_Some (input !! ta)))
                   tv ta out in
  encoder e command input = (fs2, Completed 0 stderr) →
  materialize_and_encode tv ta out e m0
  = (Ok tt,
     mk_machine (self m0) fs2
       (trace m0
          ++ [Created tv; Snapshot (length (contents (frame_buffer (self m0))))]
          ++ (if nonempty (audio_buffer (self m0)) then [Created ta] else [])
          ++ [Print ProcessingClip; EncoderRun command (Completed 0 stderr);
              Print (ClipSaved out)])).
Proof.
  intros Hv Ha Hvideo Hsound with_video input command Henc.
  unfold materialize_and_encode.
  erewrite bind_ok by (apply open_write_ok; exact Hv).
  erewrite bind_ok by reflexivity. cbn [self].
  erewrite bind_ok by reflexivity.
  erewrite bind_ok.
  2: { apply (write_frames_blocks tv _ e _ [] video); [apply lookup_insert_eq|exact Hvideo]. }
  cbn [self files trace]. rewrite insert_insert_eq. simpl app at 1.
  fold with_video.
  destruct (nonempty (audio_buffer (self m0))) eqn:Haudio.
  - erewrite bind_ok.
    2: { unfold write_wave. erewrite bind_ok by (apply open_write_ok; exact Ha).
         rewrite Hsound. cbv [bind get_files put_files]. cbn [self files trace].
         rewrite insert_insert_eq. reflexivity. }
    fold input.
    erewrite bind_ok by reflexivity.
    erewrite bind_ok by reflexivity. cbn [files].
    erewrite bind_ok by reflexivity. cbn [self files trace].
    erewrite bind_ok.
    2: { unfold run_checked. cbv [bind ask get_files put_files emit ret].
         cbn [self files trace]. fold command. rewrite Henc. reflexivity. }
    unfold print, emit. cbn [self files trace].
    rewrite <- !app_assoc. reflexivity.
  - erewrite bind_ok by reflexivity.
    fold input.
    erewrite bind_ok by reflexivity.
    erewrite bind_ok by reflexivity. cbn [files].
    erewrite bind_ok by reflexivity. cbn [self files trace].
    erewrite bind_ok.
    2: { unfold run_checked. cbv [bind ask get_files put_files emit ret].
         cbn [self files trace]. fold command. rewrite Henc. reflexivity. }
    unfold print, emit. cbn [self files trace].
    rewrite <- !app_assoc. reflexivity.
Qed.

End SavePaths.

Section SaveOutcomes.
Import Clipper Feed.

Lemma cleanup_only_removes tv ta e m :
  Forall (fun ev => prints_or_removes ev = true)
    (drop (length (trace m)) (trace (snd (cleanup tv ta e m)))).
Proof.
  unfold cleanup, path_exists, remove.
  cbv [bind get_files ret put_files emit ask raise]. simpl.
  destruct (bool_decide (is_Some (files m !! tv))); simpl.
  - destruct (removable e tv); simpl; [|rewrite drop_all; constructor].
    destruct (bool_decide (is_Some (delete tv (files m) !! ta))); simpl;
      [destruct (removable e ta); simpl|];
      rewrite <- ?app_assoc, drop_app_length; repeat constructor.
  - destruct (bool_decide (is_Some (files m !! ta))); simpl;
      [destruct (removable e ta); simpl|];
      rewrite ?drop_app_length, ?drop_all; repeat constructor.
Qed.

Lemma on_error_only_prints x e m :
  Forall (fun ev => prints_or_removes ev = true)
    (drop (length (trace m)) (trace (snd (on_error x e m)))).
Proof.
  destruct x as [rc stderr|name|name]; simpl;
    try (rewrite drop_app_length; repeat constructor).
  cbv [bind print emit]. simpl.
  destruct (PyStr.truthy stderr); simpl;
    rewrite <- ?app_assoc, drop_app_length; repeat constructor.
Qed.

(** The save around a [try] body that went through. *)
Lemma save_after_good_body e m mb :
  nonempty (frame_buffer (self m)) = true →
  let c := count_up (self m) in
  let tv := temp_video_of e c in
  let ta := temp_audio_of e c in
  let out := output_filename_of e c in
  let m0 := mk_machine c (files m) (trace m ++ [Acquire; Print (SavingClipTo out)]) in
  materialize_and_encode tv ta out e m0 = (Ok tt, mb) →
  cleanable e (files mb) tv →
  cleanable e (files mb) ta →
  ∃ later,
    save_clip e m
    = (Ok tt, mk_machine (self mb) (delete ta (delete tv (files mb)))
                (trace mb ++ later ++ [Release]))
    ∧ Forall (fun ev => prints_or_removes ev = true) later.
Proof.
  intros Hne c tv ta out m0 Hbody Hv Ha.
  rewrite (save_clip_with_frames e m Hne). cbv zeta.
  fold c. fold tv. fold ta. fold out. fold m0.
  unfold try_except. rewrite Hbody.
  pose proof (cleanup_only_removes tv ta e mb) as Hquiet.
  destruct (cleanup_runs tv ta e mb) as (rc & fs & later & Hrun & _ & Hok).
  destruct (Hok Hv Ha) as [-> ->].
  rewrite Hrun in *. cbn [snd trace] in Hquiet. rewrite drop_app_length in Hquiet.
  exists later. simpl. now rewrite <- app_assoc.
Qed.

(** The save around a [try] body that raised an [Exception]. *)
Lemma save_after_bad_body e m x mb :
  nonempty (frame_buffer (self m)) = true →
  let c := count_up (self m) in
  let tv := temp_video_of e c in
  let ta := temp_audio_of e c in
  let out := output_filename_of e c in
  let m0 := mk_machine c (files m) (trace m ++ [Acquire; Print (SavingClipTo out)]) in
  materialize_and_encode tv ta out e m0 = (Raise x, mb) →
  is_Exception x = true →
  cleanable e (files mb) tv →
  cleanable e (files mb) ta →
  ∃ later,
    save_clip e m
    = (Ok tt, mk_machine (self mb) (delete ta (delete tv (files mb)))
                (trace mb ++ Print (ErrorSavingClip x) :: later ++ [Release]))
    ∧ Forall (fun ev => prints_or_removes ev = true) later.
Proof.
  intros Hne c tv ta out m0 Hbody Hx Hv Ha.
  rewrite (save_clip_with_frames e m Hne). cbv zeta.
  fold c. fold tv. fold ta. fold out. fold m0.
  unfold try_except. rewrite Hbody, Hx.
  pose proof (on_error_only_prints x e mb) as Hq1.
  destruct (on_error_runs x e mb) as (more & Hrun1 & _).
  rewrite Hrun1 in *. cbn [snd trace] in Hq1. rewrite drop_app_length in Hq1.
  inversion Hq1 as [|? ? _ Hmore]; subst.
  set (m1 := mk_machine (self mb) (files mb)
               (trace mb ++ Print (ErrorSavingClip x) :: more)).
  pose proof (cleanup_only_removes tv ta e m1) as Hq2.
  destruct (cleanup_runs tv ta e m1) as (rc & fs & evs & Hrun2 & _ & Hok).
  destruct (Hok Hv Ha) as [-> ->].
  rewrite Hrun2 in *. cbn [snd trace] in Hq2. rewrite drop_app_length in Hq2.
  exists (more ++ evs). simpl. split.
  - now rewrite <- !app_assoc.
  - apply Forall_app. auto.
Qed.

Lemma quiet_no_encoder evs :
  Forall (fun ev => prints_or_removes ev = true) evs →
  existsb is_encoder_run evs = false.
Proof.
  induction 1 as [|ev evs Hev _ IH]; [reflexivity|].
  simpl. rewrite IH. now destruct ev.
Qed.

Lemma quiet_no_created evs path :
  Forall (fun ev => prints_or_removes ev = true) evs → ¬ In (Created path) evs.
Proof.
  induction 1 as [|ev evs Hev _ IH]; [intros []|].
  intros [->|Hin]; [discriminate|auto].
Qed.

Lemma existsb_app_false {A} (f : A → bool) l1 l2 :
  existsb f l1 = false → existsb f l2 = false → existsb f (l1 ++ l2) = false.
Proof. intros H1 H2. now rewrite existsb_app, H1, H2. Qed.

End SaveOutcomes.

(** X8. A save reads the buffers and leaves them as they are: apart from
    the counter, no field of the clipper changes, whatever the encoder
    and the file system do. *)
Theorem save_clip_keeps_buffers_and_settings
    (e : Clipper.env) (m : Clipper.machine) :
  let c := Clipper.self m in
  let c' := Clipper.self (snd (Clipper.save_clip e m)) in
  Clipper.frame_buffer c' = Clipper.frame_buffer c
  ∧ Clipper.audio_buffer c' = Clipper.audio_buffer c
  ∧ Clipper.buffer_duration c' = Clipper.buffer_duration c
  ∧ Clipper.output_folder c' = Clipper.output_folder c
  ∧ Clipper.format c' = Clipper.format c
  ∧ Clipper.is_listening c' = Clipper.is_listening c.
Proof.
  intros c c'. unfold c'.
  destruct (Clipper.nonempty (Clipper.frame_buffer (Clipper.self m))) eqn:Hne.
  - pose proof (save_clip_runs e m Hne) as H. cbv zeta in H.
    destruct H as (r & fs & b & l & _ & _ & _ & -> & _). simpl. repeat split.
  - rewrite (save_clip_no_frames e m Hne). simpl. repeat split.
Qed.

(** X9. When both temporary files can be written and removed, every
    buffered item is a block of bytes and the encoder exits with status 0,
    the encoder is
    started once, on a file system in which the raw video holds the
    frames in buffer order and, when there is sound, the wave file holds
    the blocks of sound in order; the save prints "Clip saved", returns,
    and leaves what the encoder left, less the two temporary files. *)
Theorem successful_save_hands_buffers_to_encoder
    (e : Clipper.env) (m : Clipper.machine)
    (video sound : list Byte.byte) (fs2 : gmap string Clipper.file)
    (stderr : string) :
  let c := Clipper.count_up (Clipper.self m) in
  let tv := Clipper.temp_video_of e c in
  let ta := Clipper.temp_audio_of e c in
  let out := Clipper.output_filename_of e c in
  let input := Feed.encoder_input e m video sound in
  let command := Feed.encoder_command e m input in
  let events := Clipper.events_of Clipper.save_clip e m in
  Clipper.nonempty (Clipper.frame_buffer (Clipper.self m)) = true →
  Clipper.join_blocks (Clipper.contents (Clipper.frame_buffer (Clipper.self m)))
  = Some video →
  Clipper.join_blocks (Clipper.contents (Clipper.audio_buffer (Clipper.self m)))
  = Some sound →
  Clipper.writable e tv = true →
  Clipper.writable e ta = true →
  Clipper.removable e tv = true →
  Clipper.removable e ta = true →
  Clipper.encoder e command input = (fs2, Clipper.Completed 0 stderr) →
  fst (Clipper.save_clip e m) = Clipper.Ok tt
  ∧ Clipper.files (snd (Clipper.save_clip e m)) = delete ta (delete tv fs2)
  ∧ In (Clipper.EncoderRun command (Clipper.Completed 0 stderr)) events
  ∧ In (Clipper.Print (Clipper.ClipSaved out)) events
  ∧ length (List.filter Clipper.is_encoder_run events) = 1
  ∧ (tv ≠ ta → input !! tv = Some (Clipper.Raw video))
  ∧ (Clipper.nonempty (Clipper.audio_buffer (Clipper.self m)) = true →
     input !! ta = Some (Clipper.Wave 2 2 44100 sound)).
Proof.
  intros c tv ta out input command events Hne Hvideo Hsound Hv Ha Hrv Hra Henc.
  set (m0 := Clipper.mk_machine c (Clipper.files m)
               (Clipper.trace m ++ [Clipper.Acquire;
                                    Clipper.Print (Clipper.SavingClipTo out)])).
  pose proof (materialize_and_encode_succeeds e m0 tv ta out video sound fs2 stderr
                Hv Ha Hvideo Hsound) as Hbody.
  cbv zeta in Hbody. specialize (Hbody Henc).
  destruct (save_after_good_body e m _ Hne Hbody (or_intror Hrv) (or_intror Hra))
    as (later & Hrun & Hlater).
  cbn [Clipper.self Clipper.files Clipper.trace] in Hrun.
  assert (Hevents : events =
    [Clipper.Acquire; Clipper.Print (Clipper.SavingClipTo out)]
      ++ [Clipper.Created tv;
          Clipper.Snapshot (length (Clipper.contents (Clipper.frame_buffer c)))]
      ++ (if Clipper.nonempty (Clipper.audio_buffer c) then [Clipper.Created ta] else [])
      ++ [Clipper.Print Clipper.ProcessingClip;
          Clipper.EncoderRun command (Clipper.Completed 0 stderr);
          Clipper.Print (Clipper.ClipSaved out)]
      ++ later ++ [Clipper.Release]).
  { unfold events. apply events_of_app. rewrite Hrun. unfold m0.
    cbn [Clipper.trace snd]. rewrite <- !app_assoc. reflexivity. }
  rewrite Hrun. simpl. split; [reflexivity|]. split; [reflexivity|].
  assert (Hnone : List.filter Clipper.is_encoder_run later = []).
  { clear -Hlater. induction Hlater as [|ev evs Hev _ IH]; [reflexivity|].
    simpl. rewrite IH. now destruct ev. }
  rewrite Hevents. split; [|split; [|split; [|split]]].
  - destruct (Clipper.nonempty (Clipper.audio_buffer c)); simpl; auto 10.
  - destruct (Clipper.nonempty (Clipper.audio_buffer c)); simpl; auto 10.
  - destruct (Clipper.nonempty (Clipper.audio_buffer c)); simpl;
      rewrite List.filter_app, Hnone; reflexivity.
  - intros Hneq. unfold input, Feed.encoder_input. cbv zeta. fold c tv ta.
    destruct (Clipper.nonempty (Clipper.audio_buffer c)).
    + rewrite lookup_insert_ne by congruence. apply lookup_insert_eq.
    + apply lookup_insert_eq.
  - intros Haudio. unfold input, Feed.encoder_input. cbv zeta. fold c tv ta.
    change (Clipper.audio_buffer c) with (Clipper.audio_buffer (Clipper.self m)).
    rewrite Haudio. apply lookup_insert_eq.
Qed.

Lemma successful_save_hands_buffers_to_encoder_witness :
  let e := Demo.linux 0 "" in
  let m := Clipper.start Demo.clipper_with_frames ∅ in
  fst (Clipper.save_clip e m) = Clipper.Ok tt
  ∧ Clipper.files (snd (Clipper.save_clip e m))
    = delete "clips/temp_audio_20240101_120000.wav"
        (delete "clips/temp_video_20240101_120000.raw"
           (Feed.encoder_input e m [Byte.x01; Byte.x02] [Byte.x03; Byte.x04]))
  ∧ In (Clipper.Print (Clipper.ClipSaved "clips/clip_20240101_120000_1.mp4"))
       (Clipper.events_of Clipper.save_clip e m)
  ∧ Feed.encoder_input e m [Byte.x01; Byte.x02] [Byte.x03; Byte.x04]
    !! "clips/temp_video_20240101_120000.raw"
    = Some (Clipper.Raw [Byte.x01; Byte.x02]).
Proof.
  intros e m.
  pose proof (successful_save_hands_buffers_to_encoder e m
                [Byte.x01; Byte.x02] [Byte.x03; Byte.x04]
                (Feed.encoder_input e m [Byte.x01; Byte.x02] [Byte.x03; Byte.x04])
                "" eq_refl eq_refl eq_refl eq_refl eq_refl eq_refl eq_refl eq_refl)
    as H.
  cbv zeta in H. destruct H as (H1 & H2 & _ & H4 & _ & H6 & _).
  split; [exact H1|]. split; [exact H2|]. split; [exact H4|].
  apply H6. discriminate.
Defined.

Section SaveFailures.
Import Clipper Feed.

(** The [try] body when the raw video cannot be opened. *)
Lemma materialize_and_encode_unwritable e m0 tv ta out :
  writable e tv = false →
  materialize_and_encode tv ta out e m0 = (Raise (PyException "OSError"), m0).
Proof.
  intros Hv. unfold materialize_and_encode.
  now erewrite bind_raise by (apply open_write_fails; exact Hv).
Qed.

(** The [try] body when a frame is not a block of bytes. *)
Lemma materialize_and_encode_bad_frame e m0 tv ta out :
  writable e tv = true →
  join_blocks (contents (frame_buffer (self m0))) = None →
  ∃ fs, materialize_and_encode tv ta out e m0
        = (Raise (PyException "TypeError"),
           mk_machine (self m0) fs
             (trace m0 ++ [Created tv;
                           Snapshot (length (contents (frame_buffer (self m0))))])).
Proof.
  intros Hv Hbad. unfold materialize_and_encode.
  erewrite bind_ok by (apply open_write_ok; exact Hv).
  erewrite bind_ok by reflexivity. cbn [self].
  erewrite bind_ok by reflexivity.
  destruct (write_frames_not_bytes tv (contents (frame_buffer (self m0))) e
              (mk_machine (self m0) (<[tv := Raw []]> (files m0))
                 ((trace m0 ++ [Created tv])
                    ++ [Snapshot (length (contents (frame_buffer (self m0))))]))
              []) as (fs & Hrun & _);
    [apply lookup_insert_eq|exact Hbad|].
  exists fs. erewrite bind_raise by exact Hrun.
  cbn [self trace]. now rewrite <- app_assoc.
Qed.

End SaveFailures.

(** X10. When the raw video file cannot be opened for writing, and no
    file lies under either temporary name unless it can be removed, the
    save still counts, prints the error and returns; the encoder is not
    started, nothing is created, and the files are those from before,
    less any temporary file of the same name that was lying around. *)
Theorem unwritable_folder_stops_the_save
    (e : Clipper.env) (m : Clipper.machine) :
  let c := Clipper.count_up (Clipper.self m) in
  let tv := Clipper.temp_video_of e c in
  let ta := Clipper.temp_audio_of e c in
  let events := Clipper.events_of Clipper.save_clip e m in
  Clipper.nonempty (Clipper.frame_buffer (Clipper.self m)) = true →
  Clipper.writable e tv = false →
  Clipper.cleanable e (Clipper.files m) tv →
  Clipper.cleanable e (Clipper.files m) ta →
  fst (Clipper.save_clip e m) = Clipper.Ok tt
  ∧ Clipper.self (snd (Clipper.save_clip e m)) = c
  ∧ Clipper.files (snd (Clipper.save_clip e m))
    = delete ta (delete tv (Clipper.files m))
  ∧ In (Clipper.Print (Clipper.ErrorSavingClip (Clipper.PyException "OSError")))
       events
  ∧ existsb Clipper.is_encoder_run events = false
  ∧ (∀ path, ¬ In (Clipper.Created path) events).
Proof.
  intros c tv ta events Hne Hv Hcv Hca.
  destruct (save_after_bad_body e m (Clipper.PyException "OSError") _ Hne
              (materialize_and_encode_unwritable e _ tv ta _ Hv) eq_refl Hcv Hca)
    as (later & Hrun & Hlater).
  cbn [Clipper.self Clipper.files Clipper.trace] in Hrun.
  assert (Hevents : events =
    [Clipper.Acquire;
     Clipper.Print (Clipper.SavingClipTo (Clipper.output_filename_of e c));
     Clipper.Print (Clipper.ErrorSavingClip (Clipper.PyException "OSError"))]
      ++ later ++ [Clipper.Release]).
  { unfold events. apply events_of_app. rewrite Hrun.
    cbn [Clipper.trace snd]. rewrite <- !app_assoc. reflexivity. }
  rewrite Hrun. simpl. repeat (split; [reflexivity|]).
  rewrite Hevents. split; [simpl; auto|]. split.
  - simpl. apply existsb_app_false; [now apply quiet_no_encoder|reflexivity].
  - intros path Hin. simpl in Hin.
    destruct Hin as [Hin|[Hin|[Hin|Hin]]]; try discriminate.
    apply in_app_or in Hin as [Hin|[Hin|[]]]; [|discriminate].
    now apply (quiet_no_created later path).
Qed.

Lemma unwritable_folder_stops_the_save_witness :
  let m := Clipper.start Demo.clipper_with_frames ∅ in
  fst (Clipper.save_clip Cases.read_only m) = Clipper.Ok tt
  ∧ Clipper.clip_counter (Clipper.self (snd (Clipper.save_clip Cases.read_only m))) = 1%Z
  ∧ existsb Clipper.is_encoder_run
      (Clipper.events_of Clipper.save_clip Cases.read_only m) = false.
Proof.
  intros m.
  pose proof (unwritable_folder_stops_the_save Cases.read_only m eq_refl eq_refl
                (or_introl eq_refl) (or_introl eq_refl)) as H.
  cbv zeta in H. destruct H as (H1 & H2 & _ & _ & H5 & _).
  split; [exact H1|]. split; [now rewrite H2|exact H5].
Defined.

(** X11. When the raw video can be opened and both temporary files can
    be removed, but some buffered frame is not a block of bytes, the
    writing stops with a [TypeError]: the save prints the error and
    returns, the encoder is not started, and the raw video that was
    begun is removed again. *)
Theorem bad_frame_stops_the_save
    (e : Clipper.env) (m : Clipper.machine) :
  let c := Clipper.count_up (Clipper.self m) in
  let tv := Clipper.temp_video_of e c in
  let ta := Clipper.temp_audio_of e c in
  let events := Clipper.events_of Clipper.save_clip e m in
  Clipper.nonempty (Clipper.frame_buffer (Clipper.self m)) = true →
  Clipper.writable e tv = true →
  Clipper.removable e tv = true →
  Clipper.removable e ta = true →
  In Clipper.NotBytes (Clipper.contents (Clipper.frame_buffer (Clipper.self m))) →
  fst (Clipper.save_clip e m) = Clipper.Ok tt
  ∧ Clipper.self (snd (Clipper.save_clip e m)) = c
  ∧ Clipper.files (snd (Clipper.save_clip e m)) !! tv = None
  ∧ Clipper.files (snd (Clipper.save_clip e m)) !! ta = None
  ∧ In (Clipper.Created tv) events
  ∧ In (Clipper.Print (Clipper.ErrorSavingClip (Clipper.PyException "TypeError")))
       events
  ∧ existsb Clipper.is_encoder_run events = false.
Proof.
  intros c tv ta events Hne Hv Hrv Hra Hbad.
  assert (Hjoin : Clipper.join_blocks
                    (Clipper.contents (Clipper.frame_buffer (Clipper.self m))) = None).
  { clear -Hbad. induction (Clipper.contents _) as [|x l IH]; [contradiction|].
    destruct Hbad as [->|Hin]; [reflexivity|].
    destruct x; [|reflexivity]. simpl. now rewrite (IH Hin). }
  set (m0 := Clipper.mk_machine c (Clipper.files m)
               (Clipper.trace m
                  ++ [Clipper.Acquire;
                      Clipper.Print (Clipper.SavingClipTo
                                       (Clipper.output_filename_of e c))])).
  destruct (materialize_and_encode_bad_frame e m0 tv ta
              (Clipper.output_filename_of e c) Hv Hjoin) as (fs & Hbody).
  destruct (save_after_bad_body e m (Clipper.PyException "TypeError") _ Hne
              Hbody eq_refl (or_intror Hrv) (or_intror Hra))
    as (later & Hrun & Hlater).
  cbn [Clipper.self Clipper.files Clipper.trace] in Hrun.
  assert (Hevents : events =
    [Clipper.Acquire;
     Clipper.Print (Clipper.SavingClipTo (Clipper.output_filename_of e c));
     Clipper.Created tv;
     Clipper.Snapshot (length (Clipper.contents (Clipper.frame_buffer c)));
     Clipper.Print (Clipper.ErrorSavingClip (Clipper.PyException "TypeError"))]
      ++ later ++ [Clipper.Release]).
  { unfold events. apply events_of_app. rewrite Hrun. unfold m0.
    cbn [Clipper.trace snd]. rewrite <- !app_assoc. reflexivity. }
  rewrite Hrun. cbn [fst snd Clipper.self Clipper.files].
  split; [reflexivity|]. split; [reflexivity|]. split.
  { destruct (decide (tv = ta)) as [Heq|Hneq].
    - rewrite Heq. apply lookup_delete_eq.
    - rewrite lookup_delete_ne by (intros E; apply Hneq; now symmetry).
      apply lookup_delete_eq. }
  split; [apply lookup_delete_eq|].
  rewrite Hevents. split; [simpl; auto|]. split; [simpl; auto 10|].
  simpl. apply existsb_app_false; [now apply quiet_no_encoder|reflexivity].
Qed.

Lemma bad_frame_stops_the_save_witness :
  let e := Demo.linux 0 "" in
  let m := Clipper.start Cases.clipper_with_bad_frame ∅ in
  fst (Clipper.save_clip e m) = Clipper.Ok tt
  ∧ Clipper.files (snd (Clipper.save_clip e m)) !! "clips/temp_video_20240101_120000.raw"
    = None
  ∧ existsb Clipper.is_encoder_run (Clipper.events_of Clipper.save_clip e m) = false.
Proof.
  intros e m.
  pose proof (bad_frame_stops_the_save e m eq_refl eq_refl eq_refl eq_refl) as H.
  cbv zeta in H. destruct H as (H1 & _ & H3 & _ & _ & _ & H7).
  - simpl. auto.
  - split; [exact H1|]. split; [exact H3|exact H7].
Defined.

(** ** File names *)

Section NameFacts.
Import Clipper.

Lemma append_assoc_string a b c : (a +:+ b) +:+ c = a +:+ (b +:+ c).
Proof.
  induction a as [|x a IH]; [reflexivity|].
  change (String x ((a +:+ b) +:+ c) = String x (a +:+ (b +:+ c))).
  now rewrite IH.
Qed.

Lemma append_cancel_left s a b : s +:+ a = s +:+ b → a = b.
Proof.
  induction s as [|x s IH]; [exact id|].
  change (String x (s +:+ a) = String x (s +:+ b) → a = b).
  intros [= H]. auto.
Qed.

Lemma append_cancel_right s : ∀ a b, a +:+ s = b +:+ s → a = b.
Proof.
  induction a as [|x a IH]; intros b H.
  - destruct b as [|y b]; [reflexivity|].
    apply (f_equal String.length) in H.
    rewrite !length_append_string in H. simpl in H. lia.
  - destruct b as [|y b].
    + apply (f_equal String.length) in H.
      rewrite !length_append_string in H. simpl in H. lia.
    + change (String x (a +:+ s) = String y (b +:+ s)) in H.
      injection H as -> H. f_equal. auto.
Qed.

(** On a POSIX system a joined path is a prefix, fixed by the folder,
    followed by the name. *)
Lemma posix_join_prefix folder :
  ∃ prefix, ∀ name, posix_join folder name = prefix +:+ name.
Proof.
  unfold posix_join. destruct folder as [|x folder]; [now exists EmptyString|].
  destruct (String.eqb _ "/").
  - now exists (String x folder).
  - exists (String x folder +:+ "/"). intros name.
    now rewrite append_assoc_string.
Qed.

End NameFacts.

(** X12. On a POSIX system the three names of a save are pairwise
    different, so the clean-up removes neither the clip nor the wrong
    temporary file; and two clippers states that differ only in the
    counter give different clip names, so a save never overwrites the
    clip of an earlier save made in the same second. *)
Theorem file_names_never_collide
    (e : Clipper.env) (c c' : Clipper.clipper) :
  Clipper.path_join e = Clipper.posix_join →
  Clipper.output_folder c = Clipper.output_folder c' →
  Clipper.format c = Clipper.format c' →
  (Clipper.output_filename_of e c = Clipper.output_filename_of e c'
   ↔ Clipper.clip_counter c = Clipper.clip_counter c')
  ∧ Clipper.output_filename_of e (Clipper.count_up c)
    ≠ Clipper.output_filename_of e c
  ∧ Clipper.output_filename_of e c ≠ Clipper.temp_video_of e c'
  ∧ Clipper.output_filename_of e c ≠ Clipper.temp_audio_of e c'
  ∧ Clipper.temp_video_of e c ≠ Clipper.temp_audio_of e c'.
Proof.
  intros Hjoin Hfolder Hformat.
  unfold Clipper.output_filename_of, Clipper.temp_video_of, Clipper.temp_audio_of.
  rewrite Hjoin, <- Hfolder, <- Hformat.
  destruct (posix_join_prefix (Clipper.output_folder c)) as [prefix Hp].
  rewrite !Hp.
  assert (Hinj : ∀ n n' : Z,
    prefix +:+ "clip_" +:+ Clipper.strftime e +:+ "_" +:+ pretty n +:+ "."
      +:+ PyStr.lower (Clipper.format c)
    = prefix +:+ "clip_" +:+ Clipper.strftime e +:+ "_" +:+ pretty n' +:+ "."
        +:+ PyStr.lower (Clipper.format c) → n = n').
  { intros n n' H.
    do 4 apply append_cancel_left in H.
    apply append_cancel_right in H. now apply (inj pretty). }
  split; [split; [apply Hinj|now intros ->]|].
  split.
  { cbn [Clipper.count_up Clipper.clip_counter Clipper.output_folder Clipper.format].
    intros H. apply Hinj in H. lia. }
  repeat split; intros H; apply append_cancel_left in H; discriminate H.
Qed.

Lemma file_names_never_collide_witness :
  let e := Demo.linux 0 "" in
  let c := Demo.clipper_with_frames in
  Clipper.output_filename_of e (Clipper.count_up c) ≠ Clipper.output_filename_of e c
  ∧ Clipper.output_filename_of e c ≠ Clipper.temp_video_of e c
  ∧ Clipper.output_filename_of e c ≠ Clipper.temp_audio_of e c
  ∧ Clipper.temp_video_of e c ≠ Clipper.temp_audio_of e c.
Proof.
  intros e c.
  destruct (file_names_never_collide e c c eq_refl eq_refl eq_refl)
    as (_ & H2 & H3 & H4 & H5).
  repeat split; assumption.
Defined.

(** ** Setting the duration, feeding, saving *)

(** X13. A negative duration is refused by the deque, with a
    [ValueError] when the bound of the frame buffer, d * 30, still fits
    a machine integer and with an [OverflowError] when it does not, but
    only after the duration has been stored: the clipper then has the
    negative duration and its old buffers, untouched. *)
Theorem negative_duration_is_stored_then_refused
    (d : Z) (e : Clipper.env) (m : Clipper.machine) :
  (d < 0)%Z →
  let c := Clipper.self m in
  let c' := Clipper.self (snd (Clipper.set_buffer_duration d e m)) in
  fst (Clipper.set_buffer_duration d e m)
  = Clipper.Raise
      (Clipper.PyException
         (if (d * 30 <? - 2 ^ 63)%Z then "OverflowError" else "ValueError"))
  ∧ Clipper.buffer_duration c' = d
  ∧ Clipper.frame_buffer c' = Clipper.frame_buffer c
  ∧ Clipper.audio_buffer c' = Clipper.audio_buffer c
  ∧ Clipper.clip_counter c' = Clipper.clip_counter c
  ∧ Clipper.files (snd (Clipper.set_buffer_duration d e m)) = Clipper.files m.
Proof.
  intros Hd c c'. unfold c'.
  unfold Clipper.set_buffer_duration, Clipper.new_deque, Clipper.PY_SSIZE_T_MAX.
  destruct (Z.ltb_spec (d * 30) (- 2 ^ 63)); simpl orb; cbv iota.
  - cbv [Clipper.bind Clipper.get_self Clipper.put_self Clipper.raise]. simpl.
    split_and!; reflexivity.
  - destruct (Z.ltb_spec (2 ^ 63 - 1) (d * 30)); [lia|]. simpl orb. cbv iota.
    destruct (Z.ltb_spec (d * 30) 0); [|lia].
    cbv [Clipper.bind Clipper.get_self Clipper.put_self Clipper.raise]. simpl.
    split_and!; reflexivity.
Qed.

Lemma negative_duration_is_stored_then_refused_witness :
  let e := Demo.linux 0 "" in
  let m := Clipper.start Demo.clipper_with_frames ∅ in
  let c' := Clipper.self (snd (Clipper.set_buffer_duration (-5) e m)) in
  fst (Clipper.set_buffer_duration (-5) e m)
  = Clipper.Raise (Clipper.PyException "ValueError")
  ∧ Clipper.buffer_duration c' = (-5)%Z
  ∧ Clipper.frame_buffer c' = Clipper.frame_buffer Demo.clipper_with_frames.
Proof.
  intros e m.
  pose proof (negative_duration_is_stored_then_refused (-5) e m) as H.
  cbv zeta in H. destruct H as (H1 & H2 & H3 & _); [lia|].
  repeat split; assumption.
Defined.

Section FeedFacts.
Import Clipper Feed.

Lemma last_n_nonempty {A} n (l : list A) :
  Deque.last_n n l ≠ [] ↔ 0 < n ∧ l ≠ [].
Proof.
  unfold Deque.last_n. split.
  - intros H. split.
    + destruct n; [|lia]. exfalso. apply H.
      replace (length l - 0) with (length l) by lia. apply drop_all.
    + intros ->. now apply H.
  - intros [Hn Hl] H. apply drop_nil_inv in H.
    destruct l; [contradiction|]. simpl in H. lia.
Qed.

Lemma nonempty_iff b : nonempty b = true ↔ contents b ≠ [].
Proof.
  destruct b as [d|]; simpl; [|split; [discriminate|congruence]].
  destruct (Deque.items d); split; congruence.
Qed.

End FeedFacts.

(** X14. After the duration has been set to [d], a save finds nothing
    until frames are fed; once [frames] have been fed, the frames a save
    snapshots are the last d * 30 of them, in order, so a save has
    something to write exactly when d is positive and a frame was fed.
    With a duration of 0 nothing is ever kept. *)
Theorem window_after_setting_duration
    (d : Z) (e : Clipper.env) (m : Clipper.machine) (frames : list Clipper.item) :
  (0 <= d)%Z →
  (d * 44100 * 2 <= Clipper.PY_SSIZE_T_MAX)%Z →
  let m1 := snd (Clipper.set_buffer_duration d e m) in
  let m2 := snd (Feed.feed frames e m1) in
  Clipper.save_clip e m1
  = (Clipper.Ok tt,
     Clipper.mk_machine (Clipper.self m1) (Clipper.files m)
       (Clipper.trace m
          ++ [Clipper.Acquire; Clipper.Print Clipper.NoFramesToSave;
              Clipper.Release]))
  ∧ Clipper.contents (Clipper.frame_buffer (Clipper.self m2))
    = Deque.last_n (Z.to_nat (d * 30)) frames
  ∧ (Clipper.nonempty (Clipper.frame_buffer (Clipper.self m2)) = true
     ↔ (0 < d)%Z ∧ frames ≠ [])
  ∧ Clipper.clip_counter (Clipper.self (snd (Clipper.save_clip e m2)))
    = (if decide (0 < d ∧ frames ≠ [])%Z
       then Clipper.clip_counter (Clipper.self m) + 1
       else Clipper.clip_counter (Clipper.self m))%Z.
Proof.
  intros Hd Hmax m1 m2.
  pose proof (set_buffer_duration_resets_buffers d e m Hd Hmax) as Hset.
  cbv zeta in Hset. destruct Hset as (Hok & Hdur & Hfb & Hab & _ & _ & Hpush).
  fold m1 in Hdur, Hfb, Hab.
  assert (Hfiles : Clipper.files m1 = Clipper.files m
                   ∧ Clipper.trace m1 = Clipper.trace m
                   ∧ Clipper.clip_counter (Clipper.self m1)
                     = Clipper.clip_counter (Clipper.self m)).
  { unfold m1, Clipper.set_buffer_duration.
    rewrite (new_deque_ok (d * 30)), (new_deque_ok (d * 44100 * 2)) by lia.
    repeat split. }
  destruct Hfiles as (Hfiles & Htrace & Hcount).
  assert (Hcontents : Clipper.contents (Clipper.frame_buffer (Clipper.self m2))
                      = Deque.last_n (Z.to_nat (d * 30)) frames).
  { unfold m2, Feed.feed.
    cbv [Clipper.bind Clipper.get_self Clipper.put_self]. simpl.
    rewrite Hfb. simpl. apply (Hpush frames). }
  assert (Hiff : Clipper.nonempty (Clipper.frame_buffer (Clipper.self m2)) = true
                 ↔ (0 < d)%Z ∧ frames ≠ []).
  { rewrite nonempty_iff, Hcontents, last_n_nonempty. split; intros [? ?]; split; auto; lia. }
  split.
  { rewrite save_clip_no_frames by now rewrite Hfb.
    now rewrite Hfiles, Htrace. }
  split; [exact Hcontents|]. split; [exact Hiff|].
  pose proof (counter_counts_saves_with_frames e m2) as Hc. cbv zeta in Hc.
  destruct Hc as [Hc _]. rewrite Hc.
  assert (Hsame : Clipper.clip_counter (Clipper.self m2)
                  = Clipper.clip_counter (Clipper.self m)).
  { rewrite <- Hcount. unfold m2, Feed.feed.
    cbv [Clipper.bind Clipper.get_self Clipper.put_self]. reflexivity. }
  rewrite Hsame.
  destruct (Clipper.nonempty (Clipper.frame_buffer (Clipper.self m2))) eqn:Hne;
    destruct (decide (0 < d ∧ frames ≠ [])%Z) as [Hyes|Hno]; try reflexivity.
  - exfalso. apply Hno. now apply Hiff.
  - apply Hiff in Hyes. discriminate.
Qed.

Lemma window_after_setting_duration_witness :
  let e := Demo.linux 0 "" in
  let m := Clipper.start Demo.clipper_with_frames ∅ in
  let m1 := snd (Clipper.set_buffer_duration 0 e m) in
  let m2 := snd (Feed.feed [Clipper.Block [Byte.x05]] e m1) in
  Clipper.contents (Clipper.frame_buffer (Clipper.self m2)) = []
  ∧ Clipper.clip_counter (Clipper.self (snd (Clipper.save_clip e m2))) = 0%Z.
Proof.
  intros e m.
  pose proof (window_after_setting_duration 0 e m [Clipper.Block [Byte.x05]]) as H.
  cbv zeta in H. destruct H as (_ & H2 & _ & H4).
  - lia.
  - unfold Clipper.PY_SSIZE_T_MAX. lia.
  - split; [exact H2|exact H4].
Defined.

(** ** The listening loop *)

Section ListenerFacts.
Import Clipper Listener.

(** The lines of the loop itself. *)
Definition loop_line (l : line) : Prop :=
  match l with Handled _ | AudioError => True | _ => False end.

Lemma loop_runs_detector turns : ∀ st,
  fst (fst (loop turns st)) = fst (Detector.listen (heard turns) st)
  ∧ outcomes (snd (fst (loop turns st))) = snd (Detector.listen (heard turns) st)
  ∧ snd (loop turns st) = existsb is_stop turns
  ∧ Forall loop_line (snd (fst (loop turns st))).
Proof.
  induction turns as [|t turns IH]; intros st; [simpl; auto|].
  destruct t as [| | |text now].
  - simpl. auto.
  - specialize (IH st). cbn [loop heard existsb is_stop orb].
    destruct (loop turns st) as [[st' ls] over]. simpl in *.
    destruct IH as (H1 & H2 & H3 & H4). repeat split; auto.
    constructor; [exact I|assumption].
  - specialize (IH st). cbn [loop heard existsb is_stop orb]. exact IH.
  - cbn [loop heard existsb is_stop orb]. rewrite listen_cons.
    destruct (Detector.on_text now (text_of text) st) as [st1 o]. cbn [fst snd].
    specialize (IH st1).
    destruct (loop turns st1) as [[st2 ls] over]. simpl in *.
    destruct IH as (H1 & H2 & H3 & H4). repeat split; auto.
    + now rewrite H2.
    + constructor; [exact I|assumption].
Qed.

Lemma loop_stops_at_first_stop before after : ∀ st,
  loop (before ++ StopRequested :: after) st = loop (before ++ [StopRequested]) st.
Proof.
  induction before as [|t before IH]; intros st; [reflexivity|].
  destruct t as [| | |text now]; simpl.
  - reflexivity.
  - now rewrite IH.
  - apply IH.
  - destruct (Detector.on_text now (text_of text) st) as [st1 o]. now rewrite IH.
Qed.

Lemma count_loop_lines l ls :
  Forall loop_line ls → l ≠ AudioError → count l ls = 0.
Proof.
  intros Hls Hl. unfold count. induction Hls as [|x ls Hx _ IH]; [reflexivity|].
  simpl. destruct x; try contradiction; destruct l; simpl; try exact IH; congruence.
Qed.

Lemma count_app l ls1 ls2 : count l (ls1 ++ ls2) = count l ls1 + count l ls2.
Proof. unfold count. now rewrite List.filter_app, length_app. Qed.

Lemma outcomes_app ls1 ls2 : outcomes (ls1 ++ ls2) = outcomes ls1 ++ outcomes ls2.
Proof.
  induction ls1 as [|l ls1 IH]; [reflexivity|].
  destruct l; simpl; now rewrite IH.
Qed.

End ListenerFacts.

(** X15. Once the stream and the recogniser are there, the loop is the
    detector run on the utterances that arrive before the first request
    to stop, a result without "text" counting as the empty text: chunks
    that fail or are not yet an utterance change nothing. The method
    returns exactly when a stop was requested, and [is_listening] is
    true for as long as it has not. *)
Theorem listening_loop_runs_the_detector
    (turns : list Listener.turn) (c : Clipper.clipper) :
  let result := Listener.listen_for_clips true true turns c in
  let c' := fst (fst (fst result)) in
  let lines := snd (fst (fst result)) in
  let st := snd (fst result) in
  let returned := snd result in
  st = fst (Detector.listen (Listener.heard turns) Detector.initial)
  ∧ Listener.outcomes lines
    = snd (Detector.listen (Listener.heard turns) Detector.initial)
  ∧ Detector.count_started (Listener.outcomes lines)
    = length (Run.accepted_times (Listener.heard turns) Detector.initial)
  ∧ returned = existsb Listener.is_stop turns
  ∧ Clipper.is_listening c' = negb returned.
Proof.
  intros result c' lines st returned.
  unfold returned, st, lines, c', result, Listener.listen_for_clips. simpl negb.
  cbv iota.
  destruct (loop_runs_detector turns Detector.initial) as (H1 & H2 & H3 & H4).
  destruct (Listener.loop turns Detector.initial) as [[st' ls] over].
  simpl in H1, H2, H3, H4.
  assert (Hout : Listener.outcomes
                   ([Listener.StreamOpened; Listener.Banner] ++ ls
                      ++ [Listener.StreamStopped; Listener.StreamClosed;
                          Listener.SystemStopped]) = Listener.outcomes ls).
  { simpl. rewrite outcomes_app. simpl. apply app_nil_r. }
  pose proof (accepted_triggers_are_spaced (Listener.heard turns) Detector.initial)
    as [_ Hlen].
  destruct over; cbn [fst snd].
  - rewrite Hout, H2. repeat split; auto.
  - simpl Listener.outcomes. rewrite H2. repeat split; auto.
Qed.

(** X16. The microphone stream is stopped and closed once when the
    method returns after having opened it, also when the recogniser
    could not be built, and "stopped" is the last line; it is never
    stopped while the loop runs, nor when it could not be opened. When
    the stream or the recogniser fails, the clipper is left as it was and
    no utterance is handled. *)
Theorem stream_is_released_on_return
    (opens recognizes : bool) (turns : list Listener.turn) (c : Clipper.clipper) :
  let result := Listener.listen_for_clips opens recognizes turns c in
  let c' := fst (fst (fst result)) in
  let lines := snd (fst (fst result)) in
  let returned := snd result in
  Listener.count Listener.StreamOpened lines = (if opens then 1 else 0)
  ∧ Listener.count Listener.StreamStopped lines
    = (if opens && returned then 1 else 0)
  ∧ Listener.count Listener.StreamClosed lines
    = (if opens && returned then 1 else 0)
  ∧ Listener.count Listener.SystemStopped lines = (if returned then 1 else 0)
  ∧ (if returned then last lines = Some Listener.SystemStopped else True)
  ∧ (if opens && recognizes then True
     else returned = true ∧ c' = c ∧ Listener.outcomes lines = []
          ∧ Listener.count Listener.RecognitionError lines = 1).
Proof.
  intros result c' lines returned.
  unfold returned, lines, c', result, Listener.listen_for_clips.
  destruct opens; [|simpl; repeat split].
  destruct recognizes; [|simpl; repeat split].
  simpl negb. cbv iota.
  destruct (loop_runs_detector turns Detector.initial) as (_ & _ & _ & H4).
  destruct (Listener.loop turns Detector.initial) as [[st' ls] over].
  simpl in H4.
  assert (Hc : ∀ l, l ≠ Listener.AudioError → Listener.count l ls = 0)
    by (intros l; now apply count_loop_lines).
  destruct over; cbn [fst snd andb].
  - rewrite !count_app, !Hc by discriminate. repeat split.
    rewrite app_assoc. now rewrite (last_app _ [_; _; Listener.SystemStopped]).
  - rewrite !count_app, !Hc by discriminate. repeat split.
Qed.

(** X17. What comes after the first request to stop is never handled,
    and a request to stop that is made before the loop has begun is
    lost: the method sets [is_listening] itself and runs as if nothing
    had been asked. *)
Theorem stop_request_ends_the_loop_but_not_before_it_starts
    (opens recognizes : bool) (before after : list Listener.turn)
    (c : Clipper.clipper) :
  Listener.listen_for_clips opens recognizes
    (before ++ Listener.StopRequested :: after) c
  = Listener.listen_for_clips opens recognizes
      (before ++ [Listener.StopRequested]) c
  ∧ snd (Listener.listen_for_clips opens recognizes
           (before ++ Listener.StopRequested :: after) c) = true
  ∧ Listener.listen_for_clips true true before (Listener.stop_listening c)
    = Listener.listen_for_clips true true before c.
Proof.
  split; [|split].
  - unfold Listener.listen_for_clips. now rewrite loop_stops_at_first_stop.
  - unfold Listener.listen_for_clips.
    destruct opens; [|reflexivity]. destruct recognizes; [|reflexivity].
    simpl negb. cbv iota.
    destruct (loop_runs_detector (before ++ Listener.StopRequested :: after)
                Detector.initial) as (_ & _ & H3 & _).
    destruct (Listener.loop _ Detector.initial) as [[st' ls] over].
    simpl in H3. rewrite existsb_app in H3. simpl in H3.
    rewrite orb_true_r in H3. now subst over.
  - unfold Listener.listen_for_clips. simpl negb. cbv iota.
    destruct (Listener.loop before Detector.initial) as [[st' ls] over].
    destruct over; reflexivity.
Qed.

(** ** The model path *)

#[local] Set Warnings "-clear-no-such-hyp".

(** X18. A model path that names an existing directory is returned as it
    is, on every platform and without any look at the environment.
    Otherwise the default place under the application data directory is
    returned, after at most one download, started only when that place
    is not a directory; so a path that is returned is a directory or has
    just been downloaded to. The call fails only on Windows without
    APPDATA, before any download, or when the download fails. *)
Theorem model_is_downloaded_only_when_missing
    (h : ModelPath.host) (model_path : option string) :
  let r := fst (ModelPath.initialize_model h model_path) in
  let downloads := snd (ModelPath.initialize_model h model_path) in
  let usable := match model_path with
                | Some p => PyStr.truthy p && ModelPath.isdir h p
                | None => false
                end in
  (usable = true → r = inr (Listener.text_of model_path) ∧ downloads = [])
  ∧ length downloads ≤ 1
  ∧ (∀ p, r = inr p → ModelPath.isdir h p = true ∨ downloads = [p])
  ∧ (∀ p, In p downloads →
          usable = false ∧ ModelPath.isdir h p = false
          ∧ (r = inr p ∨ r = inl ModelPath.DownloadFailed))
  ∧ (r = inl ModelPath.TypeError ↔
       usable = false ∧ ModelPath.system h = "Windows"
       ∧ ModelPath.appdata h = None)
  ∧ (r = inl ModelPath.TypeError → downloads = []).
Proof.
  intros r downloads usable.
  unfold r, downloads, usable, ModelPath.initialize_model,
    ModelPath.default_model, ModelPath.get_app_data_dir.
  assert (Hgiven : ∀ p0, PyStr.truthy p0 && ModelPath.isdir h p0 = true →
                         ModelPath.isdir h p0 = true).
  { intros p0 H. now apply andb_true_iff in H as [_ H]. }
  destruct model_path as [p0|]; simpl Listener.text_of;
    [specialize (Hgiven p0);
     destruct (PyStr.truthy p0 && ModelPath.isdir h p0)|clear Hgiven];
    destruct (String.eqb_spec (ModelPath.system h) "Windows") as [Hw|Hw];
    try destruct (ModelPath.appdata h) as [dir|];
    try destruct (String.eqb (ModelPath.system h) "Darwin");
    repeat match goal with
           | |- context [ModelPath.isdir h ?p] =>
               lazymatch goal with
               | H : ModelPath.isdir h p = _ |- _ => fail
               | _ => destruct (ModelPath.isdir h p) eqn:?
               end
           | |- context [ModelPath.download h ?p] =>
               destruct (ModelPath.download h p) eqn:?
           end;
    cbn [fst snd length In];
    split_and!; try lia; try naive_solver.
Qed.

(** ** Normalisation, against what the words mean *)

Section TextFacts.
Import PyStr TextSpec Run.

Lemma is_space_codes c :
  is_space c = existsb (N.eqb (N_of_ascii c)) white_space_codes.
Proof. destruct c as [[] [] [] [] [] [] [] []]; reflexivity. Qed.

Lemma is_space_iff c :
  is_space c = true ↔ In (N_of_ascii c) white_space_codes.
Proof.
  rewrite is_space_codes, existsb_exists. split.
  - intros [n [Hn Heq]]. apply N.eqb_eq in Heq. now subst.
  - intros H. exists (N_of_ascii c). split; [assumption|apply N.eqb_refl].
Qed.

Lemma lower_char_upper c :
  upper_case_code (N_of_ascii c) →
  N_of_ascii (lower_char c) = (N_of_ascii c + 32)%N.
Proof.
  unfold upper_case_code.
  destruct c as [[] [] [] [] [] [] [] []]; cbn; intros H; try reflexivity; lia.
Qed.

Lemma lower_char_other c :
  ¬ upper_case_code (N_of_ascii c) → lower_char c = c.
Proof.
  unfold upper_case_code.
  destruct c as [[] [] [] [] [] [] [] []]; cbn; intros H; try reflexivity;
    exfalso; apply H; lia.
Qed.

Lemma length_lower s : String.length (lower s) = String.length s.
Proof. induction s as [|c s IH]; simpl; [reflexivity|now rewrite IH]. Qed.

Lemma get_lower s : ∀ i,
  String.get i (lower s) = option_map lower_char (String.get i s).
Proof.
  induction s as [|c s IH]; intros i; [reflexivity|].
  destruct i; simpl; [reflexivity|apply IH].
Qed.

Lemma all_space_empty : all_space EmptyString.
Proof. intros c []. Qed.

Lemma all_space_cons c s : is_space c = true → all_space s → all_space (String c s).
Proof. intros Hc Hs x [<-|Hx]; auto. Qed.

(** What is stripped on the left is white space. *)
Lemma lstrip_splits s : ∃ pre, s = pre +:+ lstrip s ∧ all_space pre.
Proof.
  induction s as [|c s (pre & Hs & Hpre)]; [exists EmptyString; split; [reflexivity|apply all_space_empty]|].
  simpl. destruct (is_space c) eqn:Hc.
  - exists (String c pre). split; [|now apply all_space_cons].
    change (String c pre +:+ lstrip s) with (String c (pre +:+ lstrip s)).
    now rewrite <- Hs.
  - exists EmptyString. split; [reflexivity|apply all_space_empty].
Qed.

(** What is stripped on the right is white space. *)
Lemma rstrip_splits s : ∃ post, s = rstrip s +:+ post ∧ all_space post.
Proof.
  induction s as [|c s (post & Hs & Hpost)];
    [exists EmptyString; split; [reflexivity|apply all_space_empty]|].
  simpl. destruct (rstrip s) as [|c' r] eqn:Hr.
  - change (EmptyString +:+ post) with post in Hs. subst post.
    destruct (is_space c) eqn:Hc.
    + exists (String c s). split; [reflexivity|now apply all_space_cons].
    + exists s. split; [reflexivity|assumption].
  - exists post. split; [|assumption].
    change (String c (String c' r) +:+ post) with (String c (String c' r +:+ post)).
    now rewrite <- Hs.
Qed.

Lemma rstrip_ends_clean s : ends_clean (rstrip s).
Proof.
  induction s as [|c s IH]; intros a x Heq.
  - destruct a; discriminate.
  - simpl in Heq. destruct (rstrip s) as [|c' r] eqn:Hr.
    + destruct (is_space c) eqn:Hc; [destruct a; discriminate|].
      destruct a as [|y a].
      * simpl in Heq. now injection Heq as <-.
      * change (String y a +:+ String x EmptyString)
          with (String y (a +:+ String x EmptyString)) in Heq.
        injection Heq as _ Heq. destruct a; discriminate.
    + destruct a as [|y a].
      * simpl in Heq. discriminate.
      * change (String y a +:+ String x EmptyString)
          with (String y (a +:+ String x EmptyString)) in Heq.
        injection Heq as _ Heq. now apply (IH a x).
Qed.

(** What [strip] does: it takes white space, and only white space, off
    both ends, until neither end is white space. *)
Lemma strip_splits s :
  ∃ pre post, s = pre +:+ strip s +:+ post
              ∧ all_space pre ∧ all_space post
              ∧ starts_clean (strip s) ∧ ends_clean (strip s).
Proof.
  destruct (lstrip_splits s) as (pre & Hpre & Hsp).
  destruct (rstrip_splits (lstrip s)) as (post & Hpost & Hspost).
  exists pre, post. unfold strip. split_and!; auto.
  - now rewrite <- Hpost.
  - apply rstrip_starts_clean, lstrip_starts_clean.
  - apply rstrip_ends_clean.
Qed.

Lemma tokenizes_after_space c s ts :
  is_space c = true → tokenizes s ts → tokenizes (String c s) ts.
Proof.
  intros Hc H. destruct H as [s Hs|sp w rest ws Hsp Hw Hrest Hts].
  - constructor. now apply all_space_cons.
  - change (String c (sp +:+ w +:+ rest)) with (String c sp +:+ w +:+ rest).
    constructor; auto. now apply all_space_cons.
Qed.

(** A text that begins with a letter begins with its first word. *)
Lemma tokenizes_from_letter c s ts :
  is_space c = false → tokenizes (String c s) ts →
  ∃ w ws rest, ts = w :: ws ∧ String c s = w +:+ rest
               ∧ word_like w ∧ starts_blank rest ∧ tokenizes rest ws.
Proof.
  intros Hc H. remember (String c s) as t eqn:Ht.
  destruct H as [t Ht'|sp w rest ws Hsp Hw Hrest Hts].
  - subst t. specialize (Ht' c (or_introl eq_refl)). congruence.
  - destruct sp as [|x sp].
    + exists w, ws, rest. auto.
    + change (String x sp +:+ w +:+ rest) with (String x (sp +:+ w +:+ rest)) in Ht.
      injection Ht as <- _. specialize (Hsp x (or_introl eq_refl)). congruence.
Qed.

Lemma word_like_one c : is_space c = false → word_like (String c EmptyString).
Proof. intros Hc. split; [discriminate|]. intros x [<-|[]]. exact Hc. Qed.

Lemma word_like_grow c w : is_space c = false → word_like w → word_like (String c w).
Proof.
  intros Hc [_ Hw]. split; [discriminate|]. intros x [<-|Hx]; auto.
Qed.

(** [split] gives the words of the text. *)
Lemma split_tokenizes s : tokenizes s (split s).
Proof.
  induction s as [|c s IH]; [constructor; apply all_space_empty|].
  cbn [split]. destruct (is_space c) eqn:Hc.
  - now apply tokenizes_after_space.
  - destruct s as [|c' s'].
    + apply (tokenizes_word EmptyString (String c EmptyString) EmptyString []);
        [apply all_space_empty|now apply word_like_one|exact I|].
      constructor. apply all_space_empty.
    + destruct (is_space c') eqn:Hc'.
      * apply (tokenizes_word EmptyString (String c EmptyString) (String c' s'));
          [apply all_space_empty|now apply word_like_one|exact Hc'|exact IH].
      * destruct (tokenizes_from_letter c' s' _ Hc' IH)
          as (w & ws & rest & Hts & Hrest & Hw & Hblank & Htok).
        rewrite Hts, Hrest.
        apply (tokenizes_word EmptyString (String c w) rest ws);
          [apply all_space_empty|now apply word_like_grow|assumption|assumption].
Qed.

End TextFacts.

(** C9. Normalisation lower-cases the recognised text (every upper-case
    letter goes to the letter 32 code points up, every other character
    stays, place by place), trims it (white space, and only white space,
    is taken off both ends until neither end is white space), splits it
    into its words at white space and keeps, in order, the words longer
    than one character that are not stop words; a text whose trimmed or
    cleaned form is empty or a single character is skipped with the
    state untouched and no detection; "The Clip Now" is cleaned to
    "clip now", which holds the token "clip" and is detected by the
    direct match. *)
Theorem normalization_drops_short_and_stop_words (text : string) :
  let lowered := PyStr.lower text in
  let recognized := Detector.recognized_text text in
  let cleaned := Detector.cleaned_text recognized in
  let stop_words := ["the"; "a"; "an"; "and"; "or"; "but"; "in"; "on"; "at"; "to"] in
  (∀ c, PyStr.is_space c = true
        ↔ In (N_of_ascii c) [9; 10; 11; 12; 13; 28; 29; 30; 31; 32; 133; 160]%N)
  ∧ (∀ c, (TextSpec.upper_case_code (N_of_ascii c) →
           N_of_ascii (PyStr.lower_char c) = (N_of_ascii c + 32)%N)
          ∧ (¬ TextSpec.upper_case_code (N_of_ascii c) → PyStr.lower_char c = c))
  ∧ String.length lowered = String.length text
  ∧ (∀ i, String.get i lowered = option_map PyStr.lower_char (String.get i text))
  ∧ (∃ pre post, lowered = pre +:+ recognized +:+ post
                 ∧ TextSpec.all_space pre ∧ TextSpec.all_space post
                 ∧ Run.starts_clean recognized ∧ TextSpec.ends_clean recognized)
  ∧ TextSpec.tokenizes recognized (PyStr.split recognized)
  ∧ recognized = PyStr.strip (PyStr.lower text)
  ∧ cleaned
    = PyStr.join " "
        (List.filter
           (fun w => (1 <? String.length w)
                     && negb (existsb (String.eqb w) stop_words))
           (PyStr.split recognized))
  ∧ PyStr.split cleaned = List.filter Detector.keep_word (PyStr.split recognized)
  ∧ (∀ w, In w (PyStr.split cleaned) ↔
          In w (PyStr.split recognized) ∧ 1 < String.length w
          ∧ ¬ In w stop_words)
  ∧ (∀ now st,
        String.length recognized ≤ 1 ∨ String.length cleaned ≤ 1 →
        Detector.on_text now text st = (st, Detector.Skipped))
  ∧ Detector.cleaned_text (Detector.recognized_text "The Clip Now") = "clip now"
  ∧ In "clip" (PyStr.split "clip now")
  ∧ In "clip" Detector.clip_words
  ∧ Detector.detect "clip now" = Detector.DirectMatch
  ∧ Detector.trigger_worthy "The Clip Now" = true.
Proof.
  intros lowered recognized cleaned stop_words.
  split; [apply is_space_iff|].
  split; [intros c; split; [apply lower_char_upper|apply lower_char_other]|].
  split; [apply length_lower|].
  split; [apply get_lower|].
  split; [apply strip_splits|].
  split; [apply split_tokenizes|].
  split; [reflexivity|].
  split; [reflexivity|].
  split; [apply split_cleaned|].
  split.
  - intros w. unfold cleaned. rewrite split_cleaned, filter_In, keep_word_iff.
    reflexivity.
  - split; [intros now st; apply on_text_skips|].
    split_and!; try reflexivity; simpl; auto.
Qed.

(** ** A temporary file that cannot be removed *)

Section RemovalFails.
Import Clipper Feed.

(** The clean-up stops at a raw video that is there and cannot be
    removed. *)
Lemma cleanup_stops_at_unremovable_video tv ta e m :
  is_Some (files m !! tv) →
  removable e tv = false →
  cleanup tv ta e m = (Raise (PyException "OSError"), m).
Proof.
  intros Hex Hrm. unfold cleanup, path_exists, remove.
  cbv [bind get_files ret put_files emit ask raise].
  rewrite bool_decide_eq_true_2 by assumption. now rewrite Hrm.
Qed.

End RemovalFails.

(** X19. When the raw video file cannot be opened for writing and a file
    that cannot be removed lies under its name, the save counts and
    prints the error of the opening, but the removal in the clean-up
    raises: the [OSError] leaves [save_clip], the lock having been
    released; the files are exactly those from before, and the encoder
    is not started. *)
Theorem stale_file_that_cannot_be_removed_raises
    (e : Clipper.env) (m : Clipper.machine) :
  let c := Clipper.count_up (Clipper.self m) in
  let tv := Clipper.temp_video_of e c in
  let events := Clipper.events_of Clipper.save_clip e m in
  Clipper.nonempty (Clipper.frame_buffer (Clipper.self m)) = true →
  Clipper.writable e tv = false →
  is_Some (Clipper.files m !! tv) →
  Clipper.removable e tv = false →
  fst (Clipper.save_clip e m) = Clipper.Raise (Clipper.PyException "OSError")
  ∧ Clipper.self (snd (Clipper.save_clip e m)) = c
  ∧ Clipper.files (snd (Clipper.save_clip e m)) = Clipper.files m
  ∧ events
    = [Clipper.Acquire;
       Clipper.Print (Clipper.SavingClipTo (Clipper.output_filename_of e c));
       Clipper.Print (Clipper.ErrorSavingClip (Clipper.PyException "OSError"));
       Clipper.Release].
Proof.
  intros c tv events Hne Hv Hex Hrm.
  assert (Hrun : Clipper.save_clip e m
    = (Clipper.Raise (Clipper.PyException "OSError"),
       Clipper.mk_machine c (Clipper.files m)
         (Clipper.trace m
            ++ [Clipper.Acquire;
                Clipper.Print (Clipper.SavingClipTo (Clipper.output_filename_of e c));
                Clipper.Print (Clipper.ErrorSavingClip (Clipper.PyException "OSError"));
                Clipper.Release]))).
  { rewrite (save_clip_with_frames e m Hne). cbv zeta. fold c. fold tv.
    unfold Clipper.try_except.
    rewrite (materialize_and_encode_unwritable e _ tv _ _ Hv).
    cbn [Clipper.is_Exception Clipper.on_error Clipper.print Clipper.emit
         Clipper.self Clipper.files Clipper.trace].
    rewrite cleanup_stops_at_unremovable_video by assumption.
    cbn [Clipper.self Clipper.files Clipper.trace].
    now rewrite <- !app_assoc. }
  unfold events. rewrite (events_of_app Clipper.save_clip e m _ ltac:(now rewrite Hrun)).
  rewrite Hrun. split_and!; reflexivity.
Qed.

Lemma stale_file_that_cannot_be_removed_raises_witness :
  let e := Cases.read_only in
  let m := Clipper.start Demo.clipper_with_frames Cases.stale_video in
  fst (Clipper.save_clip e m) = Clipper.Raise (Clipper.PyException "OSError")
  ∧ Clipper.files (snd (Clipper.save_clip e m)) = Cases.stale_video
  ∧ Clipper.clip_counter (Clipper.self (snd (Clipper.save_clip e m))) = 1%Z.
Proof.
  intros e m.
  pose proof (stale_file_that_cannot_be_removed_raises e m eq_refl eq_refl) as H.
  cbv zeta in H. destruct H as (H1 & H2 & H3 & _).
  - eexists. reflexivity.
  - reflexivity.
  - split; [exact H1|]. split; [exact H3|now rewrite H2].
Defined.
